(** * Sunrisers AI Interviewer: the orchestration core of [app.py]

    A shallow embedding of [AIInterviewerApp] (candidate store, interview
    slot, ranking) together with the interviewer agent it drives.

    Python values are modelled as follows.
    - A candidate dictionary is a record; a key that is absent or holds
      [None] is an [option] field equal to [None].
    - Scores are Python floats in the unit interval; they are modelled as
      rationals [Q], with the comparisons [<] and [==] of the source.
    - A method that mutates [self] takes the state and returns the new one.
    - A method returning the tuple [(False, message)] or [(True, value)] or
      raising an exception returns a [reply].
    - [_load_candidates] and [_save_candidates] read and write the JSON file
      and leave the object as it is; the candidate list a state starts with
      is whatever the file held, and a write either goes through or raises
      (a [CandidateStore] says which).
    - [self.current_candidate] refers to a dictionary of the candidate list;
      only its [id], which is never reassigned, is read through it, so the
      field holds the record as it was when the interview started. *)

From Stdlib Require Import List String Ascii Bool Arith Lia.
From Stdlib Require Import QArith Lqa.
From Stdlib Require Import Sorting.Sorted Sorting.Permutation.
From Stdlib Require Import DecimalString DecimalNat.
Import ListNotations.

Open Scope string_scope.
Open Scope Q_scope.

(** ** Data model *)

(** The sentiment attached to a behavioral response:
    [resp["sentiment"]["label"]] and [resp["sentiment"]["score"]]. *)
Record Sentiment : Type := mkSentiment {
  sentiment_label : string;
  sentiment_score : Q
}.

(** One recorded response, as the dashboard reads it: [question],
    [response], [score], [feedback] and the optional [sentiment]. *)
Record Response : Type := mkResponse {
  resp_question : string;
  resp_response : string;
  resp_score : Q;
  resp_feedback : string;
  resp_sentiment : option Sentiment
}.

(** The [assessment] dictionary of a candidate. *)
Record Assessment : Type := mkAssessment {
  overall_technical_score : Q;
  overall_behavioral_score : Q;
  overall_score : Q;
  category_scores : list (string * Q);
  recommendation : string
}.

(** The [interview_data] dictionary of a candidate. *)
Record InterviewData : Type := mkInterviewData {
  data_technical_responses : list Response;
  data_behavioral_responses : list Response
}.

(** What [get_candidate_assessment] of the interviewer agent returns:
    the keys [assessment], [technical_responses], [behavioral_responses]. *)
Record AssessmentReport : Type := mkReport {
  report_assessment : Assessment;
  report_technical_responses : list Response;
  report_behavioral_responses : list Response
}.

(** The form data of the dashboard, before [add_candidate] completes it. *)
Record CandidateInfo : Type := mkInfo {
  info_name : string;
  info_email : string;
  info_position : string;
  info_experience : nat
}.

(** A candidate dictionary of [self.candidates]. *)
Record Candidate : Type := mkCandidate {
  cand_name : string;
  cand_email : string;
  cand_position : string;
  cand_experience : nat;
  cand_id : string;
  cand_interview_date : string;
  cand_status : string;
  cand_assessment : option Assessment;
  cand_interview_data : option InterviewData
}.

(** A question handed out by the interviewer agent: the dashboard reads
    [current_q["type"]] and [current_q["text"]]; the category is the tag the
    scores are grouped by. *)
Inductive QuestionKind : Type := Technical | Behavioral.

Record Question : Type := mkQuestion {
  q_id : nat;
  q_text : string;
  q_category : string;
  q_kind : QuestionKind
}.

(** The dictionary returned by the agent's [process_response]:
    [result["next_question"]] and [result["remaining_questions"]], and the
    response that was just recorded. *)
Record SubmitResult : Type := mkSubmit {
  recorded_response : Response;
  next_question : option Question;
  remaining_questions : nat
}.

(** ** Exceptions and replies *)

Inductive exn : Type :=
| TypeError
| OSError
| EmptySelectionError
| NoActiveCandidateError
| NoSessionInProgressError
| EmptyResponseError
| EvaluatorFailure.

(** The outcome of a call that may raise. *)
Inductive result (A : Type) : Type :=
| Return (a : A)
| Raise (e : exn).
Arguments Return {A} a.
Arguments Raise {A} e.

(** The outcome of an application method: the tuple [(False, msg)], the
    tuple [(True, v)], or an exception that escapes the method. *)
Inductive reply (A : Type) : Type :=
| Failure (msg : string)
| Success (v : A)
| Raised (e : exn).
Arguments Failure {A} msg.
Arguments Success {A} v.
Arguments Raised {A} e.

(** ** Python's [sorted]

    [sorted(xs, key=k, reverse=r)] computes the key of every element once,
    sorts the decorated list with a stable sort that only uses [<] on keys,
    and, when [reverse] is set, reverses the list before and after sorting so
    that stability is kept. *)

Definition Qltb (x y : Q) : bool := negb (Qle_bool y x).

Section PySorted.
Context {A : Type}.

Fixpoint decorate (key : A -> result Q) (l : list A) : result (list (Q * A)) :=
  match l with
  | [] => Return []
  | x :: xs =>
      match key x with
      | Raise e => Raise e
      | Return k =>
          match decorate key xs with
          | Raise e => Raise e
          | Return kxs => Return ((k, x) :: kxs)
          end
      end
  end.

(** Stable insertion: [x] stood before every element of [l] in the input,
    so it goes in front of the first element that is not smaller. *)
Fixpoint insert_stable (x : Q * A) (l : list (Q * A)) : list (Q * A) :=
  match l with
  | [] => [x]
  | y :: ys =>
      if Qltb (fst y) (fst x) then y :: insert_stable x ys
      else x :: y :: ys
  end.

Fixpoint list_sort (l : list (Q * A)) : list (Q * A) :=
  match l with
  | [] => []
  | x :: xs => insert_stable x (list_sort xs)
  end.

(** Order and equality of decorated elements, by key. *)
Definition key_le (x y : Q * A) : Prop := fst x <= fst y.
Definition key_ge (x y : Q * A) : Prop := fst y <= fst x.
Definition key_is (s : Q) (x : Q * A) : bool := Qeq_bool (fst x) s.

Definition sorted (key : A -> result Q) (reverse : bool) (l : list A)
  : result (list A) :=
  match decorate key l with
  | Raise e => Raise e
  | Return kl =>
      let kl1 := if reverse then rev kl else kl in
      let s := list_sort kl1 in
      let s1 := if reverse then rev s else s in
      Return (map snd s1)
  end.
End PySorted.

(** ** Ranking keys of [AIInterviewerApp.get_candidate_rankings] *)

(** Truth value of [c.get("assessment")]: an assessment dictionary has keys,
    so it is truthy; an absent key or [None] is falsy. *)
Definition has_assessment (c : Candidate) : bool :=
  match cand_assessment c with
  | Some _ => true
  | None => false
  end.

(** [lambda x: x["assessment"]["overall_score"]]: subscripting [None]
    raises [TypeError]. *)
Definition score_key (c : Candidate) : result Q :=
  match cand_assessment c with
  | Some a => Return (overall_score a)
  | None => Raise TypeError
  end.

(** [a] is ranked at least as high as [b]: both carry a score and the score
    of [b] does not exceed the score of [a]. *)
Definition score_ge (a b : Candidate) : Prop :=
  match score_key a, score_key b with
  | Return x, Return y => y <= x
  | _, _ => False
  end.

(** Candidates whose assessment carries a score equal to [s]. *)
Definition has_score (s : Q) (c : Candidate) : bool :=
  match score_key c with
  | Return x => Qeq_bool x s
  | Raise _ => false
  end.

(** ** The interviewer agent, as the application sees it

    [app.py] drives an [InterviewerAgent] through three methods.  Each one
    may mutate the agent and may raise, so it returns the agent after the
    call together with a [result]. *)
Class InterviewerAgent (agent : Type) : Type := {
  (** [start_interview(candidate_id, technical_focus=, behavioral_focus=)] *)
  agent_start_interview :
    agent -> string -> bool -> bool -> agent * result (option Question);
  (** [process_response(response_text)] *)
  agent_process_response :
    agent -> string -> agent * result SubmitResult;
  (** [get_candidate_assessment()] *)
  agent_get_candidate_assessment :
    agent -> result AssessmentReport
}.

(** ** The application: [class AIInterviewerApp] *)

Record AIInterviewerApp (agent : Type) : Type := mkApp {
  interviewer : agent;
  candidates : list Candidate;
  current_candidate : option Candidate;
  interview_in_progress : bool
}.
Arguments mkApp {agent} _ _ _ _.
Arguments interviewer {agent} _.
Arguments candidates {agent} _.
Arguments current_candidate {agent} _.
Arguments interview_in_progress {agent} _.

(** [f"C{n}"]: the letter C followed by the decimal numeral of [n]. *)
Definition format_id (n : nat) : string :=
  "C" ++ NilZero.string_of_uint (Nat.to_uint n).

(** The number an id of the form [C<numeral>] stands for. *)
Definition id_number (s : string) : option nat :=
  match s with
  | String "C" digits =>
      match NilZero.uint_of_string digits with
      | Some d => Some (Nat.of_uint d)
      | None => None
      end
  | _ => None
  end.

(** [next((c for c in self.candidates if c["id"] == candidate_id), None)] *)
Definition find_candidate (cs : list Candidate) (candidate_id : string)
  : option Candidate :=
  find (fun c => String.eqb (cand_id c) candidate_id) cs.

(** [candidate["position"] in ["Software Engineer", "Data Scientist",
    "DevOps Engineer"]] *)
Definition technical_positions : list string :=
  ["Software Engineer"; "Data Scientist"; "DevOps Engineer"].

Definition technical_focus_of (c : Candidate) : bool :=
  existsb (String.eqb (cand_position c)) technical_positions.

(** The pair of keyword arguments [start_interview] hands to the agent:
    [(technical_focus, behavioral_focus)]. *)
Definition focus_flags (c : Candidate) : bool * bool :=
  let technical_focus := technical_focus_of c in
  let behavioral_focus := true in
  (technical_focus, behavioral_focus).

(** The body of the loop of [_update_candidate_assessment]: the first
    candidate whose id matches is rewritten, then the loop breaks. *)
Definition attach_assessment (report : AssessmentReport) (c : Candidate)
  : Candidate :=
  {| cand_name := cand_name c;
     cand_email := cand_email c;
     cand_position := cand_position c;
     cand_experience := cand_experience c;
     cand_id := cand_id c;
     cand_interview_date := cand_interview_date c;
     cand_status := "Interviewed";
     cand_assessment := Some (report_assessment report);
     cand_interview_data :=
       Some {| data_technical_responses := report_technical_responses report;
               data_behavioral_responses := report_behavioral_responses report |}
  |}.

Fixpoint update_first (target : string) (report : AssessmentReport)
  (cs : list Candidate) : list Candidate :=
  match cs with
  | [] => []
  | c :: rest =>
      if String.eqb (cand_id c) target
      then attach_assessment report c :: rest
      else c :: update_first target report rest
  end.

(** [_save_candidates()]: writing the candidate list to
    [data/candidates.json] either goes through or raises (an [OSError] from
    the file system, a [TypeError] from [json.dump]).  The object is not
    changed by it. *)
Class CandidateStore : Type := {
  _save_candidates : list Candidate -> result unit
}.

Section App.
Context {agent : Type} `{InterviewerAgent agent} `{CandidateStore}.

Let App : Type := AIInterviewerApp agent.

(** [add_candidate(candidate_info)]; [today] is the date string that
    [datetime.now()] yields.  Writing the JSON file leaves the object as it
    is; the state and the id are those of a call whose closing write went
    through (when it raises, the record is appended all the same and that
    exception escapes instead of the id).  The caller builds a new dictionary
    for every call. *)
Definition add_candidate (today : string) (st : App) (candidate_info : CandidateInfo)
  : App * string :=
  let candidate_id := format_id (List.length (candidates st) + 1)%nat in
  let c :=
    {| cand_name := info_name candidate_info;
       cand_email := info_email candidate_info;
       cand_position := info_position candidate_info;
       cand_experience := info_experience candidate_info;
       cand_id := candidate_id;
       cand_interview_date := today;
       cand_status := "Pending";
       cand_assessment := None;
       cand_interview_data := None |} in
  (mkApp (interviewer st) (candidates st ++ [c])
         (current_candidate st) (interview_in_progress st),
   candidate_id).

(** [start_interview(candidate_id)].  The two attributes are assigned
    before the agent is called, so they keep their new values when the
    agent raises. *)
Definition start_interview (st : App) (candidate_id : string)
  : App * reply (option Question) :=
  match find_candidate (candidates st) candidate_id with
  | None => (st, Failure "Candidate not found")
  | Some candidate =>
      let '(technical_focus, behavioral_focus) := focus_flags candidate in
      let '(ag, r) :=
        agent_start_interview (interviewer st) candidate_id
                              technical_focus behavioral_focus in
      let st' := mkApp ag (candidates st) (Some candidate) true in
      match r with
      | Raise e => (st', Raised e)
      | Return next_q => (st', Success next_q)
      end
  end.

(** [_update_candidate_assessment()].  With an empty candidate list the
    loop body never runs; otherwise its first test reads
    [self.current_candidate["id"]], which raises on [None].  The list is
    written to the file after the loop; an exception of that write escapes
    with the record already rewritten. *)
Definition _update_candidate_assessment (st : App) : App * result unit :=
  match agent_get_candidate_assessment (interviewer st) with
  | Raise e => (st, Raise e)
  | Return assessment =>
      match candidates st, current_candidate st with
      | [], _ => (st, _save_candidates (candidates st))
      | _ :: _, None => (st, Raise TypeError)
      | cs, Some cur =>
          let cs' := update_first (cand_id cur) assessment cs in
          (mkApp (interviewer st) cs'
                 (current_candidate st) (interview_in_progress st),
           _save_candidates cs')
      end
  end.

(** [process_response(response_text)] *)
Definition process_response (st : App) (response_text : string)
  : App * reply SubmitResult :=
  if negb (interview_in_progress st) then
    (st, Failure "No interview in progress")
  else
    let '(ag, r) := agent_process_response (interviewer st) response_text in
    let st1 := mkApp ag (candidates st) (current_candidate st)
                     (interview_in_progress st) in
    match r with
    | Raise e => (st1, Raised e)
    | Return res =>
        match next_question res with
        | None =>
            let st2 := mkApp ag (candidates st) (current_candidate st) false in
            match _update_candidate_assessment st2 with
            | (st3, Raise e) => (st3, Raised e)
            | (st3, Return _) => (st3, Success res)
            end
        | Some _ => (st1, Success res)
        end
    end.

(** [get_candidate_rankings()] *)
Definition get_candidate_rankings (st : App) : result (list Candidate) :=
  let assessed_candidates := filter has_assessment (candidates st) in
  match assessed_candidates with
  | [] => Return []
  | _ => sorted score_key true assessed_candidates
  end.

(** The ids handed out by a run of [add_candidate] calls, in call order,
    and the application after the run. *)
Fixpoint add_candidates (today : string) (st : App) (infos : list CandidateInfo)
  : App * list string :=
  match infos with
  | [] => (st, [])
  | i :: rest =>
      let '(st1, cid) := add_candidate today st i in
      let '(st2, cids) := add_candidates today st1 rest in
      (st2, cid :: cids)
  end.
End App.

(** ** The interviewer agent of [models.py] *)

(** What the response evaluator returns for one question and one answer. *)
Record Evaluation : Type := mkEvaluation {
  eval_score : Q;
  eval_feedback : string;
  eval_sentiment : option Sentiment
}.

(** Modelled from the spec: the Question Bank of [models.py] is not among the
    sources; it holds an ordered pool of technical and an ordered pool of
    behavioral questions. *)
Record QuestionBank : Type := mkBank {
  technical_pool : list Question;
  behavioral_pool : list Question
}.

(** Modelled from the spec: the selection of the Question Bank, which is not
    among the sources.  Technical questions are included iff
    [technical_focus], behavioral questions iff [behavioral_focus], in the
    fixed pool order; when neither flag is set the selection fails with
    [EmptySelectionError].  A selected pool without questions contributes
    nothing and is no error, unless both pools end up empty: a selection
    without any question fails as well. *)
Definition select (bank : QuestionBank) (technical_focus behavioral_focus : bool)
  : result (list Question) :=
  if negb technical_focus && negb behavioral_focus then Raise EmptySelectionError
  else
    match ((if technical_focus then technical_pool bank else []) ++
           (if behavioral_focus then behavioral_pool bank else []))%list with
    | [] => Raise EmptySelectionError
    | q :: qs => Return (q :: qs)
    end.

(** Modelled from the spec: the states of an interview session. *)
Inductive SessionStatus : Type := NotStarted | InProgress | Completed.

(** Modelled from the spec: the interview session kept by the agent, which is
    not among the sources: the candidate, the queue of questions still to be
    answered (its head is the current question), the answered questions with
    their responses in the order they were recorded, and the status. *)
Record InterviewSession : Type := mkSession {
  session_candidate_id : string;
  session_queue : list Question;
  session_completed : list (Question * Response);
  session_status : SessionStatus
}.

Definition is_in_progress (s : SessionStatus) : bool :=
  match s with
  | InProgress => true
  | _ => false
  end.

Definition is_technical (k : QuestionKind) : bool :=
  match k with
  | Technical => true
  | Behavioral => false
  end.

(** Modelled from the spec: the recommendation of the Assessment Aggregator,
    which is not among the sources: below 0.5 "Not Recommended", from 0.5 and
    below 0.65 "Consider", from 0.65 and below 0.8 "Recommended", from 0.8 on
    "Strongly Recommended". *)
Definition recommend (s : Q) : string :=
  if Qltb s (1 # 2) then "Not Recommended"
  else if Qltb s (13 # 20) then "Consider"
  else if Qltb s (4 # 5) then "Recommended"
  else "Strongly Recommended".

(** Sum and mean of a list of scores, in list order; the mean of no score
    is [0.0]. *)
Definition Qsum (l : list Q) : Q := fold_left Qplus l 0.

Definition mean (l : list Q) : Q :=
  match l with
  | [] => 0
  | _ => Qsum l / inject_Z (Z.of_nat (List.length l))
  end.

(** The categories of a list of answered questions, each once, in the order
    of first appearance. *)
Fixpoint categories_of (seen : list string) (l : list (Question * Response))
  : list string :=
  match l with
  | [] => []
  | (q, _) :: rest =>
      if existsb (String.eqb (q_category q)) seen
      then categories_of seen rest
      else q_category q :: categories_of (q_category q :: seen) rest
  end.

Definition scores_of (l : list (Question * Response)) : list Q :=
  map (fun qr => resp_score (snd qr)) l.

Definition category_means (l : list (Question * Response)) : list (string * Q) :=
  map (fun c =>
         (c, mean (scores_of
                     (filter (fun qr => String.eqb (q_category (fst qr)) c) l))))
      (categories_of [] l).

(** Modelled from the spec: the Assessment Aggregator, which is not among the
    sources.  Category scores are means per category, computed for the
    technical and for the behavioral responses and merged; the two overall
    scores are means (0 when the kind was not asked); the overall score is
    their average with weights 0.5 and 0.5 when both kinds were asked, and the
    one score present otherwise; the recommendation follows [recommend]. *)
Definition aggregate (ses : InterviewSession) : AssessmentReport :=
  let tech := filter (fun qr => is_technical (q_kind (fst qr))) (session_completed ses) in
  let behav := filter (fun qr => negb (is_technical (q_kind (fst qr)))) (session_completed ses) in
  let t := mean (scores_of tech) in
  let b := mean (scores_of behav) in
  let overall :=
    match tech, behav with
    | [], [] => 0
    | _ :: _, [] => t
    | [], _ :: _ => b
    | _ :: _, _ :: _ => (1 # 2) * t + (1 # 2) * b
    end in
  {| report_assessment :=
       {| overall_technical_score := t;
          overall_behavioral_score := b;
          overall_score := overall;
          category_scores := (category_means tech ++ category_means behav)%list;
          recommendation := recommend overall |};
     report_technical_responses := map snd tech;
     report_behavioral_responses := map snd behav |}.

(** Modelled from the spec: the agent of [models.py], which is not among the
    sources, holds the response evaluator it consults and at most one
    interview session. *)
Record SessionAgent (evaluator : Type) : Type := mkAgent {
  agent_evaluator : evaluator;
  agent_session : option InterviewSession
}.
Arguments mkAgent {evaluator} _ _.
Arguments agent_evaluator {evaluator} _.
Arguments agent_session {evaluator} _.

Section SpecAgent.
(** The question bank the agent was built with, and the response evaluator:
    an external capability with a state of its own, which may fail. *)
Variable bank : QuestionBank.
Variable evaluator : Type.
Variable evaluate :
  evaluator -> Question -> string -> evaluator * result Evaluation.

(** Modelled from the spec: [start] of the interview session, which is not
    among the sources.  It fails with [NoActiveCandidateError] if a session
    exists and is in progress for a different candidate; otherwise it builds
    the queue through the Question Bank, moves to [InProgress] and returns
    the first question. *)
Definition session_start (ag : SessionAgent evaluator) (candidate_id : string)
  (technical_focus behavioral_focus : bool)
  : SessionAgent evaluator * result (option Question) :=
  let conflict :=
    match agent_session ag with
    | Some ses => is_in_progress (session_status ses)
                  && negb (String.eqb (session_candidate_id ses) candidate_id)
    | None => false
    end in
  if conflict then (ag, Raise NoActiveCandidateError)
  else
    match select bank technical_focus behavioral_focus with
    | Raise e => (ag, Raise e)
    | Return qs =>
        (mkAgent (agent_evaluator ag)
                 (Some (mkSession candidate_id qs [] InProgress)),
         Return (hd_error qs))
    end.

(** Modelled from the spec: [submit] of the interview session, which is not
    among the sources.  It fails with [NoSessionInProgressError] if the state
    is not [InProgress]; an empty text is rejected with [EmptyResponseError]
    before evaluation and the queue is not advanced; an evaluator failure
    leaves the session unchanged.  Otherwise the response to the current
    question is recorded, the question is popped, and the session is
    [Completed] once the queue is empty.  The spec leaves open what happens
    in progress with no question pending; no question can be answered then,
    and the call is rejected like a call without a session. *)
Definition session_submit (ag : SessionAgent evaluator) (response_text : string)
  : SessionAgent evaluator * result SubmitResult :=
  match agent_session ag with
  | None => (ag, Raise NoSessionInProgressError)
  | Some ses =>
      if negb (is_in_progress (session_status ses)) then
        (ag, Raise NoSessionInProgressError)
      else if String.eqb response_text "" then
        (ag, Raise EmptyResponseError)
      else
        match session_queue ses with
        | [] => (ag, Raise NoSessionInProgressError)
        | q :: rest =>
            match evaluate (agent_evaluator ag) q response_text with
            | (ev_state, Raise _) =>
                (mkAgent ev_state (agent_session ag), Raise EvaluatorFailure)
            | (ev_state, Return ev) =>
                let r :=
                  {| resp_question := q_text q;
                     resp_response := response_text;
                     resp_score := eval_score ev;
                     resp_feedback := eval_feedback ev;
                     resp_sentiment :=
                       if is_technical (q_kind q) then None
                       else eval_sentiment ev |} in
                let status' :=
                  match rest with
                  | [] => Completed
                  | _ :: _ => InProgress
                  end in
                (mkAgent ev_state
                   (Some (mkSession (session_candidate_id ses) rest
                            (session_completed ses ++ [(q, r)])%list status')),
                 Return {| recorded_response := r;
                           next_question := hd_error rest;
                           remaining_questions := List.length rest |})
            end
        end
  end.

(** Modelled from the spec: [get_assessment], which is not among the
    sources: the aggregate of the session's responses. *)
Definition session_assessment (ag : SessionAgent evaluator)
  : result AssessmentReport :=
  match agent_session ag with
  | None => Raise NoSessionInProgressError
  | Some ses => Return (aggregate ses)
  end.

(** The agent the specification describes, as an agent of the application. *)
#[export] Instance SpecAgent : InterviewerAgent (SessionAgent evaluator) := {
  agent_start_interview := session_start;
  agent_process_response := session_submit;
  agent_get_candidate_assessment := session_assessment
}.
End SpecAgent.

(** ** Observing the calls made to the agent

    An agent wrapped in a log of the calls of [start_interview] and
    [process_response] it received, with their arguments, in call order.
    These are the two methods that hand the application's data to the agent;
    [get_candidate_assessment] takes no argument and is passed through
    without an entry in the log. *)
Inductive AgentCall : Type :=
| CallStart (candidate_id : string) (technical_focus behavioral_focus : bool)
| CallProcess (response_text : string).

Record Traced (agent : Type) : Type := mkTraced {
  traced_agent : agent;
  trace : list AgentCall
}.
Arguments mkTraced {agent} _ _.
Arguments traced_agent {agent} _.
Arguments trace {agent} _.

Section TracedAgent.
Context {agent : Type} `{InterviewerAgent agent}.

Definition traced_start (t : Traced agent) (candidate_id : string)
  (technical_focus behavioral_focus : bool)
  : Traced agent * result (option Question) :=
  let '(ag, r) := agent_start_interview (traced_agent t) candidate_id
                                        technical_focus behavioral_focus in
  (mkTraced ag (trace t ++ [CallStart candidate_id technical_focus
                                       behavioral_focus])%list, r).

Definition traced_process (t : Traced agent) (response_text : string)
  : Traced agent * result SubmitResult :=
  let '(ag, r) := agent_process_response (traced_agent t) response_text in
  (mkTraced ag (trace t ++ [CallProcess response_text])%list, r).

#[export] Instance TracedAgent : InterviewerAgent (Traced agent) := {
  agent_start_interview := traced_start;
  agent_process_response := traced_process;
  agent_get_candidate_assessment t :=
    agent_get_candidate_assessment (traced_agent t)
}.
End TracedAgent.

(** ** Order on candidate ids *)

(** [a] was handed out before [b]: both are of the form [C<numeral>] and the
    number of [a] is the smaller one. *)
Definition id_lt (a b : string) : Prop :=
  match id_number a, id_number b with
  | Some x, Some y => (x < y)%nat
  | _, _ => False
  end.

(** A decorated candidate carries its own score as key. *)
Definition keyed (p : Q * Candidate) : Prop := score_key (snd p) = Return (fst p).

(** ** The interview slot is well formed

    Whenever the flag is raised, there is a current candidate and a record of
    the candidate list carries its id. *)
Definition slot_ok {agent : Type} (st : AIInterviewerApp agent) : Prop :=
  interview_in_progress st = true ->
  exists cur c,
    current_candidate st = Some cur /\
    find_candidate (candidates st) (cand_id cur) = Some c.

(** ** Sample data

    A small question bank, an evaluator that scores every answer 4/5, and a
    few candidate records, on which the statements below are exercised. *)
Definition sample_technical_question : Question :=
  mkQuestion 1 "Explain Big O notation" "algorithms" Technical.

Definition sample_behavioral_question : Question :=
  mkQuestion 2 "How do you handle disagreements with team members?"
             "teamwork" Behavioral.

Definition sample_bank : QuestionBank :=
  mkBank [sample_technical_question] [sample_behavioral_question].

Definition sample_evaluate (ev : unit) (q : Question) (text : string)
  : unit * result Evaluation :=
  (ev, Return (mkEvaluation (4 # 5) "Clear answer"
                            (Some (mkSentiment "POSITIVE" (9 # 10))))).

Definition SampleAgent : InterviewerAgent (SessionAgent unit) :=
  SpecAgent sample_bank unit sample_evaluate.

(** A file every write to which goes through, and one that cannot be
    written. *)
Definition SampleStore : CandidateStore :=
  {| _save_candidates := fun _ => Return tt |}.

Definition ReadOnlyStore : CandidateStore :=
  {| _save_candidates := fun _ => Raise OSError |}.

Definition sample_info (name position : string) : CandidateInfo :=
  mkInfo name "someone@example.com" position 3.

Definition sample_assessment (s : Q) : Assessment :=
  mkAssessment s s s [] (recommend s).

Definition sample_candidate (cid position : string) (a : option Assessment)
  : Candidate :=
  mkCandidate "Someone" "someone@example.com" position 3 cid "2024-01-01"
              (match a with Some _ => "Interviewed" | None => "Pending" end)
              a None.

Definition sample_app (cs : list Candidate) : AIInterviewerApp (SessionAgent unit) :=
  mkApp (mkAgent tt None) cs None false.

Definition alice : Candidate := sample_candidate "C1" "Other" None.
Definition bob : Candidate := sample_candidate "C2" "Software Engineer" None.

(** The application once the interview of [alice] has been started. *)
Definition sample_started : AIInterviewerApp (SessionAgent unit) :=
  mkApp (mkAgent tt (Some (mkSession "C1" [sample_behavioral_question] []
                                     InProgress)))
        [alice; bob] (Some alice) true.

(** The response recorded for the one question asked to [alice], the result
    of submitting it, and the report of the finished session. *)
Definition sample_response : Response :=
  mkResponse "How do you handle disagreements with team members?"
             "I listen first" (4 # 5) "Clear answer"
             (Some (mkSentiment "POSITIVE" (9 # 10))).

Definition sample_result : SubmitResult := mkSubmit sample_response None 0.

Definition sample_finished_session : InterviewSession :=
  mkSession "C1" [] [(sample_behavioral_question, sample_response)] Completed.

(** ** The rest of the application object *)

(** [_load_candidates()]: the contents of [data/candidates.json], or the
    empty list when the file does not exist ([None]). *)
Definition _load_candidates (file : option (list Candidate)) : list Candidate :=
  match file with
  | Some cs => cs
  | None => []
  end.

(** [__init__()]: [fresh] is the agent [InterviewerAgent()] builds. *)
Definition init {agent : Type} (fresh : agent) (file : option (list Candidate))
  : AIInterviewerApp agent :=
  mkApp fresh (_load_candidates file) None false.

(** [get_candidate_details(candidate_id)] *)
Definition get_candidate_details {agent : Type} (st : AIInterviewerApp agent)
  (candidate_id : string) : option Candidate :=
  find_candidate (candidates st) candidate_id.

(** [[c for c in app.candidates if c["status"] == "Pending"]], the list the
    dashboard offers for an interview. *)
Definition pending_candidates {agent : Type} (st : AIInterviewerApp agent)
  : list Candidate :=
  filter (fun c => String.eqb (cand_status c) "Pending") (candidates st).

(** ** Sequences of calls

    The public methods that change the object, and what a sequence of such
    calls leaves behind.  A call that raises leaves the object in the state
    it had reached; the next call works on that state. *)
Inductive Operation : Type :=
| OpAdd (today : string) (candidate_info : CandidateInfo)
| OpStart (candidate_id : string)
| OpProcess (response_text : string).

Definition step {agent : Type} `{InterviewerAgent agent} `{CandidateStore}
  (st : AIInterviewerApp agent) (op : Operation) : AIInterviewerApp agent :=
  match op with
  | OpAdd today candidate_info => fst (add_candidate today st candidate_info)
  | OpStart candidate_id => fst (start_interview st candidate_id)
  | OpProcess response_text => fst (process_response st response_text)
  end.

Definition run {agent : Type} `{InterviewerAgent agent} `{CandidateStore}
  (st : AIInterviewerApp agent) (ops : list Operation) : AIInterviewerApp agent :=
  fold_left step ops st.

(** The keys of a candidate dictionary that are written once, by
    [add_candidate]. *)
Definition identity (c : Candidate) : string * string * string * nat * string * string :=
  (cand_name c, cand_email c, cand_position c, cand_experience c, cand_id c,
   cand_interview_date c).

(** [c'] is a later version of the record [c]: the same identity, and an
    assessment if [c] had one. *)
Definition evolves (c c' : Candidate) : Prop :=
  identity c = identity c' /\
  (has_assessment c = true -> has_assessment c' = true).

(** A record as the application writes it: pending without an assessment,
    or interviewed with an assessment and the interview data. *)
Definition status_ok (c : Candidate) : Prop :=
  (cand_status c = "Pending" /\ cand_assessment c = None
   /\ cand_interview_data c = None) \/
  (cand_status c = "Interviewed" /\ cand_assessment c <> None
   /\ cand_interview_data c <> None).

(** The ids of the list are [C1], [C2], ... in list order. *)
Definition ids_ok (cs : list Candidate) : Prop :=
  map cand_id cs = map format_id (seq 1 (List.length cs)).

(** The dictionary [add_candidate] appends: the form data completed with
    the id, the date, the status "Pending" and no assessment. *)
Definition new_record (today candidate_id : string) (candidate_info : CandidateInfo)
  : Candidate :=
  {| cand_name := info_name candidate_info;
     cand_email := info_email candidate_info;
     cand_position := info_position candidate_info;
     cand_experience := info_experience candidate_info;
     cand_id := candidate_id;
     cand_interview_date := today;
     cand_status := "Pending";
     cand_assessment := None;
     cand_interview_data := None |}.

(** ** The dashboard: page "New Interview" of [run_streamlit_dashboard]

    One run of the script on that page, as a function of the values the
    widgets return in the run, of the application object the run works on
    and of [st.session_state].  Only what the run does to these and the
    status messages it shows ([st.success], [st.error], [st.warning],
    [st.info]) is kept; titles, text and charts are not.  Every widget call
    returns the value the run was given for it. *)

(** [st.session_state], with the three keys the script initialises. *)
Record SessionState : Type := mkSessionState {
  ss_interview_active : bool;
  ss_current_question : option Question;
  ss_interview_candidate_id : option string
}.

(** The values the widgets of the page return in one run. *)
Record Widgets : Type := mkWidgets {
  w_name : string;                (* st.text_input("Full Name") *)
  w_email : string;               (* st.text_input("Email") *)
  w_position : string;            (* st.selectbox("Position", ...) *)
  w_experience : nat;             (* st.slider("Years of Experience", ...) *)
  w_submitted : bool;             (* st.form_submit_button("Add Candidate") *)
  w_start_now : bool;             (* st.button("Start Interview Now") *)
  w_selected_candidate : string;  (* st.selectbox("Select Candidate", ...) *)
  w_start_interview : bool;       (* st.button("Start Interview") *)
  w_response : string;            (* st.text_area("Answer ...") *)
  w_submit_response : bool        (* st.button("Submit Response") *)
}.

Inductive Message : Type :=
| MsgSuccess (text : string)
| MsgError (text : string)
| MsgWarning (text : string)
| MsgInfo (text : string).

(** How a run ends: it reaches the end of the script, it is restarted by
    [st.experimental_rerun()], or an exception escapes. *)
Inductive Ending : Type :=
| Finished
| Rerun
| Aborted (e : exn)
| AbortedKeyError.

Record Page (agent : Type) : Type := mkPage {
  page_app : AIInterviewerApp agent;
  page_session : SessionState;
  page_messages : list Message;
  page_ending : Ending
}.
Arguments mkPage {agent} _ _ _ _.
Arguments page_app {agent} _.
Arguments page_session {agent} _.
Arguments page_messages {agent} _.
Arguments page_ending {agent} _.

(** Truth value of a string: the empty string is falsy. *)
Definition nonempty (s : string) : bool := negb (String.eqb s "").

(** A Python dictionary from strings to strings: keys in the order of their
    first insertion, each with the value written last. *)
Fixpoint dict_set (k v : string) (d : list (string * string))
  : list (string * string) :=
  match d with
  | [] => [(k, v)]
  | (k', v') :: rest =>
      if String.eqb k' k then (k', v) :: rest
      else (k', v') :: dict_set k v rest
  end.

Definition dict_get (k : string) (d : list (string * string)) : option string :=
  match find (fun kv => String.eqb (fst kv) k) d with
  | Some kv => Some (snd kv)
  | None => None
  end.

(** [f"{c['name']} ({c['id']})"] *)
Definition candidate_label (c : Candidate) : string :=
  cand_name c ++ " (" ++ cand_id c ++ ")".

(** [{f"{c['name']} ({c['id']})": c["id"] for c in cs}] *)
Definition candidate_options (cs : list Candidate) : list (string * string) :=
  fold_left (fun d c => dict_set (candidate_label c) (cand_id c) d) cs [].

(** [f"Response processed. {n} questions remaining."] *)
Definition remaining_message (n : nat) : string :=
  "Response processed. " ++ NilZero.string_of_uint (Nat.to_uint n)
    ++ " questions remaining.".

Section Dashboard.
Context {agent : Type} `{InterviewerAgent agent} `{CandidateStore}.

(** The form "Candidate Information" (lines 190-223). *)
Definition form_section (w : Widgets) (today : string)
  (app : AIInterviewerApp agent) (ss : SessionState) : Page agent :=
  if w_submitted w then
    if nonempty (w_name w) && nonempty (w_email w) then
      let candidate_info :=
        mkInfo (w_name w) (w_email w) (w_position w) (w_experience w) in
      let '(app1, candidate_id) := add_candidate today app candidate_info in
      let shown :=
        [MsgSuccess ("Candidate added successfully! ID: " ++ candidate_id)] in
      if w_start_now w then
        mkPage app1 (mkSessionState true None (Some candidate_id)) shown Rerun
      else mkPage app1 ss shown Finished
    else mkPage app ss [MsgError "Please fill in all required fields"] Finished
  else mkPage app ss [] Finished.

(** The selection and the button "Start Interview" (lines 236-249), shown
    when no interview is active. *)
Definition start_section (w : Widgets) (app : AIInterviewerApp agent)
  (ss : SessionState) : Page agent :=
  let options := candidate_options (pending_candidates app) in
  match dict_get (w_selected_candidate w) options with
  | None => mkPage app ss [] AbortedKeyError
  | Some selected_id =>
      if w_start_interview w then
        match start_interview app selected_id with
        | (app1, Success result) =>
            mkPage app1 (mkSessionState true result (Some selected_id)) [] Rerun
        | (app1, Failure msg) => mkPage app1 ss [MsgError msg] Finished
        | (app1, Raised e) => mkPage app1 ss [] (Aborted e)
        end
      else mkPage app ss [] Finished
  end.

(** "Interview in Progress" (lines 252-287), shown when an interview is
    active.  [candidate['name']] raises when the lookup returned [None]. *)
Definition interview_section (w : Widgets) (app : AIInterviewerApp agent)
  (ss : SessionState) : Page agent :=
  let candidate :=
    match ss_interview_candidate_id ss with
    | Some cid => get_candidate_details app cid
    | None => None
    end in
  match candidate with
  | None => mkPage app ss [] (Aborted TypeError)
  | Some _ =>
      match ss_current_question ss with
      | Some current_q =>
          if w_submit_response w then
            if nonempty (w_response w) then
              match process_response app (w_response w) with
              | (app1, Success result) =>
                  match next_question result with
                  | Some q =>
                      mkPage app1
                        (mkSessionState (ss_interview_active ss) (Some q)
                                        (ss_interview_candidate_id ss))
                        [MsgSuccess (remaining_message (remaining_questions result))]
                        Rerun
                  | None =>
                      mkPage app1
                        (mkSessionState false None (ss_interview_candidate_id ss))
                        [MsgSuccess "Interview completed!"] Rerun
                  end
              | (app1, Failure msg) => mkPage app1 ss [MsgError msg] Finished
              | (app1, Raised e) => mkPage app1 ss [] (Aborted e)
              end
            else mkPage app ss [MsgWarning "Please enter a response"] Finished
          else mkPage app ss [] Finished
      | None =>
          mkPage app
            (mkSessionState false (ss_current_question ss)
                            (ss_interview_candidate_id ss))
            [MsgInfo "Interview complete or no questions available"] Finished
      end
  end.

(** A section run after what the run has done so far; nothing runs once the
    script has ended. *)
Definition and_then (p : Page agent)
  (next : AIInterviewerApp agent -> SessionState -> Page agent) : Page agent :=
  match page_ending p with
  | Finished =>
      let q := next (page_app p) (page_session p) in
      mkPage (page_app q) (page_session q)
             (page_messages p ++ page_messages q) (page_ending q)
  | _ => p
  end.

(** The page (lines 186-287). *)
Definition new_interview_page (w : Widgets) (today : string)
  (app : AIInterviewerApp agent) (ss : SessionState) : Page agent :=
  and_then (form_section w today app ss) (fun app1 ss1 =>
    match pending_candidates app1 with
    | [] =>
        mkPage app1 ss1
               [MsgInfo "No pending candidates available for interview."] Finished
    | _ :: _ =>
        and_then
          (if negb (ss_interview_active ss1) then start_section w app1 ss1
           else mkPage app1 ss1 [] Finished)
          (fun app2 ss2 =>
             if ss_interview_active ss2 then interview_section w app2 ss2
             else mkPage app2 ss2 [] Finished)
    end).
End Dashboard.

(** [run_streamlit_dashboard()] on the page "New Interview": the run builds
    its own application object first (line 133). *)
Definition run_new_interview {agent : Type} `{InterviewerAgent agent}
  `{CandidateStore}
  (fresh : agent) (file : option (list Candidate))
  (w : Widgets) (today : string) (ss : SessionState) : Page agent :=
  new_interview_page w today (init fresh file) ss.

(** ** The dashboard: page "Candidate Details" (lines 288-310)

    What the page arrives at for the label chosen in its selection box:
    the note that there are no candidates, a [KeyError] from the options
    dictionary, the error "Candidate not found", or the candidate whose
    details it goes on to display. *)
Inductive DetailsView : Type :=
| ViewInfo (text : string)
| ViewKeyError
| ViewError (text : string)
| ViewCandidate (c : Candidate).

Definition candidate_details_page {agent : Type} (selected_candidate : string)
  (app : AIInterviewerApp agent) : DetailsView :=
  let all_candidates := candidates app in
  match all_candidates with
  | [] => ViewInfo "No candidates in the system."
  | _ :: _ =>
      match dict_get selected_candidate (candidate_options all_candidates) with
      | None => ViewKeyError
      | Some selected_id =>
          match get_candidate_details app selected_id with
          | None => ViewError "Candidate not found"
          | Some candidate => ViewCandidate candidate
          end
      end
  end.

(** The characters of a string. *)
Definition chars (s : string) : list ascii := list_ascii_of_string s.

(** The application after [start_interview] for [alice] and then, with her
    interview still in progress, for [bob]. *)
Definition sample_overtaken : AIInterviewerApp (SessionAgent unit) :=
  @run _ SampleAgent SampleStore (init (mkAgent tt None) (Some [alice; bob]))
       [OpStart "C1"; OpStart "C2"].

(** [a] stands at least as high as [b] by [overall_score]: both have an
    assessment, and the [overall_score] of [b]'s does not exceed that of
    [a]'s. *)
Definition overall_score_ge (a b : Candidate) : Prop :=
  match cand_assessment a, cand_assessment b with
  | Some x, Some y => overall_score y <= overall_score x
  | _, _ => False
  end.

(** * Properties *)

(** ** The comparison on scores *)

Lemma Qltb_true x y : Qltb x y = true <-> x < y.
Proof.
  unfold Qltb. rewrite negb_true_iff. split.
  - intros Hb. apply Qnot_le_lt. intros Hle.
    apply Qle_bool_iff in Hle. congruence.
  - intros Hlt. destruct (Qle_bool y x) eqn:E; [|reflexivity].
    apply Qle_bool_iff in E. exfalso. exact (Qlt_not_le _ _ Hlt E).
Qed.

Lemma Qltb_false x y : Qltb x y = false <-> y <= x.
Proof.
  unfold Qltb. rewrite negb_false_iff. apply Qle_bool_iff.
Qed.

(** ** The stable sort behind [sorted] *)

Section SortFacts.
Context {A : Type}.
Implicit Types (x y : Q * A) (l : list (Q * A)).

Lemma insert_stable_perm x l : Permutation (insert_stable x l) (x :: l).
Proof.
  induction l as [|y ys IH]; simpl.
  - apply Permutation_refl.
  - destruct (Qltb (fst y) (fst x)).
    + eapply perm_trans; [apply perm_skip, IH | apply perm_swap].
    + apply Permutation_refl.
Qed.

Lemma list_sort_perm l : Permutation (list_sort l) l.
Proof.
  induction l as [|x xs IH]; simpl.
  - constructor.
  - eapply perm_trans; [apply insert_stable_perm | apply perm_skip, IH].
Qed.

Lemma insert_stable_sorted x l :
  StronglySorted key_le l -> StronglySorted key_le (insert_stable x l).
Proof.
  induction l as [|y ys IH]; simpl; intros Hs.
  - constructor; constructor.
  - apply StronglySorted_inv in Hs. destruct Hs as [Hys Hall].
    destruct (Qltb (fst y) (fst x)) eqn:E.
    + constructor; [apply IH, Hys|].
      eapply Permutation_Forall.
      * apply Permutation_sym, insert_stable_perm.
      * constructor; [|exact Hall].
        apply Qlt_le_weak, Qltb_true, E.
    + apply Qltb_false in E.
      constructor; [constructor; assumption|].
      constructor; [exact E|].
      eapply Forall_impl; [|exact Hall].
      intros z Hz. unfold key_le in *. eapply Qle_trans; eassumption.
Qed.

Lemma list_sort_sorted l : StronglySorted key_le (list_sort l).
Proof.
  induction l as [|x xs IH]; simpl.
  - constructor.
  - apply insert_stable_sorted, IH.
Qed.

(** Insertion never moves an element across one with an equal key. *)
Lemma insert_stable_filter s x l :
  filter (key_is s) (insert_stable x l) = filter (key_is s) (x :: l).
Proof.
  induction l as [|y ys IH]; [reflexivity|].
  cbn [insert_stable]. destruct (Qltb (fst y) (fst x)) eqn:E; [|reflexivity].
  cbn [filter] in *. rewrite IH.
  destruct (key_is s y) eqn:Ey; [|reflexivity].
  destruct (key_is s x) eqn:Ex; [|reflexivity].
  exfalso. unfold key_is in *.
  apply Qeq_bool_iff in Ey, Ex. apply Qltb_true in E.
  rewrite Ey, Ex in E. exact (Qlt_irrefl _ E).
Qed.

Lemma list_sort_filter s l :
  filter (key_is s) (list_sort l) = filter (key_is s) l.
Proof.
  induction l as [|x xs IH]; [reflexivity|].
  cbn [list_sort]. rewrite insert_stable_filter.
  cbn [filter]. now rewrite IH.
Qed.

Lemma filter_rev (p : Q * A -> bool) l : filter p (rev l) = rev (filter p l).
Proof.
  induction l as [|x xs IH]; [reflexivity|].
  cbn [rev filter]. rewrite filter_app, IH. cbn [filter].
  destruct (p x); cbn [rev]; [reflexivity | now rewrite app_nil_r].
Qed.

Lemma sorted_snoc (R : Q * A -> Q * A -> Prop) l x :
  StronglySorted R l -> Forall (fun z => R z x) l ->
  StronglySorted R (l ++ [x]).
Proof.
  induction 1 as [|z zs Hzs IH Hz]; intros Hx; cbn [app].
  - constructor; constructor.
  - apply Forall_cons_iff in Hx. destruct Hx as [Hzx Hx].
    constructor; [apply IH, Hx|].
    apply Forall_app. split; [exact Hz|]. constructor; [exact Hzx|constructor].
Qed.

Lemma rev_sorted l : StronglySorted key_le l -> StronglySorted key_ge (rev l).
Proof.
  induction 1 as [|x xs Hs IH Hall]; cbn [rev]; [constructor|].
  apply sorted_snoc; [exact IH|].
  apply Forall_rev. exact Hall.
Qed.

(** The descending stable sort: what [sorted] does with [reverse=True]
    once the keys are computed. *)
Lemma sort_desc_perm l : Permutation (rev (list_sort (rev l))) l.
Proof.
  eapply perm_trans; [apply Permutation_sym, Permutation_rev|].
  eapply perm_trans; [apply list_sort_perm|].
  apply Permutation_sym, Permutation_rev.
Qed.

Lemma sort_desc_sorted l : StronglySorted key_ge (rev (list_sort (rev l))).
Proof. apply rev_sorted, list_sort_sorted. Qed.

Lemma sort_desc_filter s l :
  filter (key_is s) (rev (list_sort (rev l))) = filter (key_is s) l.
Proof.
  now rewrite filter_rev, list_sort_filter, filter_rev, rev_involutive.
Qed.
End SortFacts.

(** ** Ranking *)

Lemma score_key_assessed c :
  has_assessment c = true -> exists k, score_key c = Return k.
Proof.
  unfold has_assessment, score_key. destruct (cand_assessment c); [eauto|discriminate].
Qed.

Lemma decorate_assessed l :
  Forall (fun c => has_assessment c = true) l ->
  exists kl, decorate score_key l = Return kl /\ map snd kl = l /\ Forall keyed kl.
Proof.
  induction 1 as [|c cs Hc Hcs IH]; cbn [decorate].
  - exists []. repeat split; constructor.
  - destruct (score_key_assessed c Hc) as [k Hk].
    destruct IH as (kl & Hd & Hm & Hk').
    rewrite Hk, Hd. exists ((k, c) :: kl). repeat split.
    + cbn [map snd]. now rewrite Hm.
    + constructor; assumption.
Qed.

Lemma filter_assessed l :
  Forall (fun c => has_assessment c = true) (filter has_assessment l).
Proof.
  apply Forall_forall. intros c Hc. apply filter_In in Hc. apply Hc.
Qed.

Lemma keyed_sorted kl :
  Forall keyed kl -> StronglySorted key_ge kl ->
  StronglySorted score_ge (map snd kl).
Proof.
  intros Hk Hs. induction Hs as [|p ps Hps IH Hall]; cbn [map]; [constructor|].
  apply Forall_cons_iff in Hk. destruct Hk as [Hp Hk].
  constructor; [apply IH, Hk|].
  apply Forall_forall. intros c Hc. apply in_map_iff in Hc.
  destruct Hc as (q & <- & Hq).
  rewrite Forall_forall in Hall, Hk.
  specialize (Hall q Hq). specialize (Hk q Hq).
  unfold score_ge, keyed in *. rewrite Hp, Hk. exact Hall.
Qed.

Lemma keyed_filter s kl :
  Forall keyed kl ->
  filter (has_score s) (map snd kl) = map snd (filter (key_is s) kl).
Proof.
  induction 1 as [|p ps Hp Hps IH]; [reflexivity|].
  cbn [map filter]. rewrite IH.
  unfold has_score at 1. unfold keyed in Hp. rewrite Hp.
  change (key_is s p) with (Qeq_bool (fst p) s).
  destruct (Qeq_bool (fst p) s); reflexivity.
Qed.

Lemma has_score_assessed s c : has_score s c = true -> has_assessment c = true.
Proof.
  unfold has_score, score_key, has_assessment.
  destruct (cand_assessment c); [reflexivity|discriminate].
Qed.

Lemma filter_has_score_assessed s l :
  filter (has_score s) (filter has_assessment l) = filter (has_score s) l.
Proof.
  induction l as [|c cs IH]; [reflexivity|].
  cbn [filter]. destruct (has_assessment c) eqn:Ea; cbn [filter]; rewrite IH.
  - reflexivity.
  - destruct (has_score s c) eqn:Es; [|reflexivity].
    apply has_score_assessed in Es. congruence.
Qed.

(** What [sorted(..., key=..., reverse=True)] yields on assessed candidates. *)
Lemma sorted_assessed l :
  Forall (fun c => has_assessment c = true) l ->
  exists r,
    sorted score_key true l = Return r /\
    Permutation r l /\
    StronglySorted score_ge r /\
    forall s, filter (has_score s) r = filter (has_score s) l.
Proof.
  intros Hl. destruct (decorate_assessed l Hl) as (kl & Hd & Hm & Hk).
  unfold sorted. rewrite Hd. eexists. split; [reflexivity|].
  assert (Hk' : Forall keyed (rev (list_sort (rev kl)))).
  { eapply Permutation_Forall; [|exact Hk].
    apply Permutation_sym, sort_desc_perm. }
  repeat split.
  - rewrite <- Hm. apply Permutation_map, sort_desc_perm.
  - apply keyed_sorted; [exact Hk'|apply sort_desc_sorted].
  - intros s. rewrite keyed_filter by exact Hk'.
    rewrite sort_desc_filter, <- keyed_filter by exact Hk.
    now rewrite Hm.
Qed.

Section Ranking.
Context {agent : Type} `{InterviewerAgent agent} `{CandidateStore}.

Lemma rankings_spec (st : AIInterviewerApp agent) :
  exists r,
    get_candidate_rankings st = Return r /\
    Permutation r (filter has_assessment (candidates st)) /\
    StronglySorted score_ge r /\
    forall s, filter (has_score s) r = filter (has_score s) (candidates st).
Proof.
  unfold get_candidate_rankings.
  destruct (sorted_assessed _ (filter_assessed (candidates st)))
    as (r & Hr & Hp & Hs & Hf).
  assert (Hf' : forall s,
             filter (has_score s) r = filter (has_score s) (candidates st)).
  { intros s. rewrite Hf. apply filter_has_score_assessed. }
  clear Hf.
  destruct (filter has_assessment (candidates st)) as [|c cs] eqn:E.
  - exists []. repeat split; try constructor.
    intros s. rewrite <- (filter_has_score_assessed s (candidates st)), E.
    reflexivity.
  - exists r. repeat split; assumption.
Qed.
End Ranking.

Lemma score_ge_overall a b : score_ge a b -> overall_score_ge a b.
Proof.
  unfold score_ge, score_key, overall_score_ge.
  destruct (cand_assessment a), (cand_assessment b); trivial.
Qed.

Lemma sorted_by_overall_score r :
  StronglySorted score_ge r -> StronglySorted overall_score_ge r.
Proof.
  induction 1 as [|c cs Hs IH Hall]; constructor; [exact IH|].
  eapply Forall_impl; [|exact Hall]. intros b. apply score_ge_overall.
Qed.

(** C1: for every candidate list, [get_candidate_rankings] returns (without
    raising) exactly the candidates that have an assessment, each as often as
    it occurs in the list, sorted non-increasing by [overall_score]: every
    entry has an assessment whose [overall_score] is at least that of every
    later entry.  A candidate without an assessment does not occur in the
    output at all. *)
Theorem rankings_assessed_sorted (agent : Type) (st : AIInterviewerApp agent) :
  exists r,
    get_candidate_rankings st = Return r /\
    Permutation r (filter has_assessment (candidates st)) /\
    StronglySorted overall_score_ge r /\
    (forall c, In c r <-> In c (candidates st) /\ cand_assessment c <> None).
Proof.
  destruct (rankings_spec st) as (r & Hr & Hp & Hs & _).
  apply sorted_by_overall_score in Hs.
  exists r. repeat split; try assumption.
  - eapply Permutation_in in H; [|exact Hp]. apply filter_In in H. apply H.
  - eapply Permutation_in in H; [|exact Hp]. apply filter_In in H.
    destruct H as [_ H]. unfold has_assessment in H.
    destruct (cand_assessment c); [discriminate|discriminate H].
  - intros [Hin Ha]. eapply Permutation_in; [apply Permutation_sym, Hp|].
    apply filter_In. split; [exact Hin|].
    unfold has_assessment. destruct (cand_assessment c); [reflexivity|congruence].
Qed.

Example rankings_example :
  get_candidate_rankings
    (sample_app [sample_candidate "C1" "Other" (Some (sample_assessment (7 # 10)));
                 sample_candidate "C2" "Other" None;
                 sample_candidate "C3" "Other" (Some (sample_assessment (9 # 10)));
                 sample_candidate "C4" "Other" (Some (sample_assessment (7 # 10)))])
  = Return [sample_candidate "C3" "Other" (Some (sample_assessment (9 # 10)));
            sample_candidate "C1" "Other" (Some (sample_assessment (7 # 10)));
            sample_candidate "C4" "Other" (Some (sample_assessment (7 # 10)))].
Proof. reflexivity. Qed.

Lemma filter_split {A : Type} (p : A -> bool) (r u v : list A) (a : A) :
  filter p r = (u ++ a :: v)%list ->
  exists r1 r2, r = (r1 ++ a :: r2)%list /\ filter p r1 = u /\ filter p r2 = v.
Proof.
  revert u. induction r as [|x xs IH]; intros u Hf.
  - destruct u; discriminate Hf.
  - cbn [filter] in Hf. destruct (p x) eqn:Ex.
    + destruct u as [|y u'].
      * injection Hf as -> Hv. exists [], xs. repeat split. exact Hv.
      * injection Hf as -> Hv. destruct (IH _ Hv) as (r1 & r2 & -> & H1 & H2).
        exists (y :: r1), r2. repeat split; [|exact H2].
        cbn [filter]. now rewrite Ex, H1.
    + destruct (IH _ Hf) as (r1 & r2 & -> & H1 & H2).
      exists (x :: r1), r2. repeat split; [|exact H2].
      cbn [filter]. now rewrite Ex.
Qed.

(** C6: [get_candidate_rankings] is stable on ties.  For every score, the
    assessed candidates with that score occur in the output in exactly their
    input order; in particular, when [a] stands before [b] in the candidate
    list and both are assessed with equal [overall_score], [a] stands before
    [b] in the output. *)
Theorem rankings_stable (agent : Type) (st : AIInterviewerApp agent)
    (l1 l2 l3 : list Candidate) (a b : Candidate) (sa sb : Q) :
  candidates st = (l1 ++ a :: l2 ++ b :: l3)%list ->
  score_key a = Return sa ->
  score_key b = Return sb ->
  sa == sb ->
  exists r r1 r2 r3,
    get_candidate_rankings st = Return r /\
    (forall s, filter (has_score s) r = filter (has_score s) (candidates st)) /\
    r = (r1 ++ a :: r2 ++ b :: r3)%list /\
    filter (has_score sa) r1 = filter (has_score sa) l1 /\
    filter (has_score sa) r2 = filter (has_score sa) l2 /\
    filter (has_score sa) r3 = filter (has_score sa) l3.
Proof.
  intros Hcs Ha Hb Hab.
  destruct (rankings_spec st) as (r & Hr & _ & _ & Hf).
  pose proof (Hf sa) as Hsa. rewrite Hcs in Hsa.
  assert (Hpa : has_score sa a = true).
  { unfold has_score. rewrite Ha. apply Qeq_bool_refl. }
  assert (Hpb : has_score sa b = true).
  { unfold has_score. rewrite Hb. apply Qeq_bool_iff. symmetry. exact Hab. }
  rewrite filter_app in Hsa. cbn [filter] in Hsa. rewrite Hpa in Hsa.
  rewrite filter_app in Hsa. cbn [filter] in Hsa. rewrite Hpb in Hsa.
  destruct (filter_split _ _ _ _ _ Hsa) as (r1 & r' & -> & H1 & H').
  destruct (filter_split _ _ _ _ _ H') as (r2 & r3 & -> & H2 & H3).
  exists (r1 ++ a :: r2 ++ b :: r3)%list, r1, r2, r3.
  repeat split; assumption.
Qed.

Lemma rankings_stable_witness :
  exists r r1 r2 r3,
    get_candidate_rankings
      (sample_app [sample_candidate "C1" "Other" (Some (sample_assessment (7 # 10)));
                   sample_candidate "C2" "Other" (Some (sample_assessment (9 # 10)));
                   sample_candidate "C3" "Other" (Some (sample_assessment (14 # 20)))])
    = Return r /\
    (forall s, filter (has_score s) r =
               filter (has_score s)
                 [sample_candidate "C1" "Other" (Some (sample_assessment (7 # 10)));
                  sample_candidate "C2" "Other" (Some (sample_assessment (9 # 10)));
                  sample_candidate "C3" "Other" (Some (sample_assessment (14 # 20)))]) /\
    r = (r1 ++ sample_candidate "C1" "Other" (Some (sample_assessment (7 # 10)))
            :: r2 ++ sample_candidate "C3" "Other" (Some (sample_assessment (14 # 20)))
            :: r3)%list /\
    filter (has_score (7 # 10)) r1 = filter (has_score (7 # 10)) [] /\
    filter (has_score (7 # 10)) r2 =
      filter (has_score (7 # 10))
        [sample_candidate "C2" "Other" (Some (sample_assessment (9 # 10)))] /\
    filter (has_score (7 # 10)) r3 = filter (has_score (7 # 10)) [].
Proof.
  apply (rankings_stable _
           (sample_app [sample_candidate "C1" "Other" (Some (sample_assessment (7 # 10)));
                        sample_candidate "C2" "Other" (Some (sample_assessment (9 # 10)));
                        sample_candidate "C3" "Other" (Some (sample_assessment (14 # 20)))])
           [] [sample_candidate "C2" "Other" (Some (sample_assessment (9 # 10)))] []
           _ _ (7 # 10) (14 # 20)); reflexivity.
Defined.

(** ** Candidate ids *)

Lemma id_number_format_id n : id_number (format_id n) = Some n.
Proof.
  unfold format_id, id_number. cbn [append].
  destruct (Nat.to_uint n) eqn:E;
    [ pose proof (Unsigned.of_to n) as Hn; rewrite E in Hn;
      cbn in Hn; subst n; reflexivity
    | rewrite NilZero.usu by discriminate; rewrite <- E;
      now rewrite Unsigned.of_to .. ].
Qed.

Lemma format_id_injective n m : format_id n = format_id m -> n = m.
Proof.
  intros E. apply (f_equal id_number) in E.
  rewrite !id_number_format_id in E. now injection E.
Qed.

Lemma id_lt_format_id n m : id_lt (format_id n) (format_id m) <-> (n < m)%nat.
Proof. unfold id_lt. rewrite !id_number_format_id. reflexivity. Qed.

Lemma format_ids_nodup a k : NoDup (map format_id (seq a k)).
Proof.
  apply Finite.Injective_map_NoDup; [|apply seq_NoDup].
  intros n m. apply format_id_injective.
Qed.

Lemma format_ids_sorted a k : StronglySorted id_lt (map format_id (seq a k)).
Proof.
  revert a. induction k as [|k IH]; intros a; cbn [seq map]; constructor.
  - apply IH.
  - apply Forall_forall. intros s Hs. apply in_map_iff in Hs.
    destruct Hs as (m & <- & Hm). apply in_seq in Hm.
    apply id_lt_format_id. lia.
Qed.

Lemma add_candidates_ids (agent : Type) today (st : AIInterviewerApp agent) infos :
  snd (add_candidates today st infos)
    = map format_id (seq (S (List.length (candidates st))) (List.length infos)) /\
  map cand_id (candidates (fst (add_candidates today st infos)))
    = (map cand_id (candidates st) ++ snd (add_candidates today st infos))%list.
Proof.
  revert st. induction infos as [|i rest IH]; intros st.
  - cbn. now rewrite app_nil_r.
  - cbn [add_candidates].
    destruct (add_candidate today st i) as [st1 cid] eqn:E1.
    specialize (IH st1).
    destruct (add_candidates today st1 rest) as [st2 cids] eqn:E2.
    unfold add_candidate in E1. injection E1 as <- <-.
    cbn [fst snd candidates] in *. destruct IH as [IH1 IH2].
    rewrite IH2, IH1, length_app, map_app.
    cbn [List.length map cand_id seq].
    rewrite <- app_assoc. cbn [app].
    replace (List.length (candidates st) + 1)%nat
      with (S (List.length (candidates st))) by lia.
    split; reflexivity.
Qed.

(** C8: for every run of [add_candidate] calls, from any application state,
    the ids handed out are pairwise distinct and strictly increasing in call
    order (in the order of the number after the letter C); they are the ids
    of the records appended to the candidate list. *)
Theorem add_candidate_ids_unique_increasing (agent : Type) (today : string)
    (st : AIInterviewerApp agent) (infos : list CandidateInfo) :
  NoDup (snd (add_candidates today st infos)) /\
  StronglySorted id_lt (snd (add_candidates today st infos)) /\
  snd (add_candidates today st infos)
    = map format_id (seq (S (List.length (candidates st))) (List.length infos)) /\
  map cand_id (candidates (fst (add_candidates today st infos)))
    = (map cand_id (candidates st) ++ snd (add_candidates today st infos))%list.
Proof.
  destruct (add_candidates_ids agent today st infos) as [H1 H2].
  rewrite H2, H1. repeat split.
  - apply format_ids_nodup.
  - apply format_ids_sorted.
Qed.

Example add_candidates_example :
  snd (add_candidates "2024-01-01" (sample_app [])
         (repeat (sample_info "Someone" "Other") 11))
  = ["C1"; "C2"; "C3"; "C4"; "C5"; "C6"; "C7"; "C8"; "C9"; "C10"; "C11"].
Proof. reflexivity. Qed.

(** ** The interview slot *)

Lemma find_candidate_none cs cid :
  ~ In cid (map cand_id cs) -> find_candidate cs cid = None.
Proof.
  intros Hn. unfold find_candidate.
  destruct (find _ cs) as [c|] eqn:E; [|reflexivity].
  apply find_some in E. destruct E as [Hin He].
  apply String.eqb_eq in He. exfalso. apply Hn.
  rewrite <- He. now apply in_map.
Qed.

Lemma find_candidate_split cs cid c :
  find_candidate cs cid = Some c ->
  exists pre post,
    cs = (pre ++ c :: post)%list /\
    cand_id c = cid /\
    (forall x, In x pre -> cand_id x <> cid) /\
    forall report,
      update_first cid report cs = (pre ++ attach_assessment report c :: post)%list.
Proof.
  unfold find_candidate. induction cs as [|x xs IH]; [discriminate|].
  cbn [find update_first]. destruct (String.eqb (cand_id x) cid) eqn:E.
  - intros [= ->]. exists [], xs. apply String.eqb_eq in E.
    repeat split; [exact E | intros y []].
  - intros Hf. destruct (IH Hf) as (pre & post & -> & Hid & Hpre & Hup).
    exists (x :: pre), post. repeat split; [exact Hid | |].
    + intros y [<-|Hy]; [now apply String.eqb_neq | now apply Hpre].
    + intros report. cbn [app]. now rewrite Hup.
Qed.

Section Slot.
Context {agent : Type} `{InterviewerAgent agent} `{CandidateStore}.
Implicit Types (st : AIInterviewerApp agent).

Lemma app_eta st :
  mkApp (interviewer st) (candidates st) (current_candidate st)
        (interview_in_progress st) = st.
Proof. now destruct st. Qed.

(** [start_interview] never touches the candidate list. *)
Lemma start_interview_candidates st cid :
  candidates (fst (start_interview st cid)) = candidates st.
Proof.
  unfold start_interview.
  destruct (find_candidate (candidates st) cid); [|reflexivity].
  cbn [focus_flags].
  destruct (agent_start_interview _ _ _ _) as [ag [q|e]]; reflexivity.
Qed.

(** A successful [start_interview] makes the record it found the current
    candidate and raises the flag. *)
Lemma start_interview_owner st cid q :
  snd (start_interview st cid) = Success q ->
  exists c,
    find_candidate (candidates st) cid = Some c /\
    current_candidate (fst (start_interview st cid)) = Some c /\
    interview_in_progress (fst (start_interview st cid)) = true.
Proof.
  unfold start_interview.
  destruct (find_candidate (candidates st) cid) as [c|]; [|discriminate].
  cbn [focus_flags].
  destruct (agent_start_interview _ _ _ _) as [ag [q'|e]]; [|discriminate].
  intros _. exists c. repeat split.
Qed.
End Slot.

(** C10: for every candidate id that no record of the candidate list
    carries, [start_interview] returns the failure ["Candidate not found"]
    and leaves the whole application state as it was: the agent is not
    called, [current_candidate] and [interview_in_progress] keep their
    values. *)
Theorem start_interview_unknown_candidate (agent : Type)
    (I : InterviewerAgent agent) (st : AIInterviewerApp agent) (cid : string) :
  ~ In cid (map cand_id (candidates st)) ->
  start_interview st cid = (st, Failure "Candidate not found").
Proof.
  intros Hn. unfold start_interview.
  now rewrite (find_candidate_none _ _ Hn).
Qed.

Lemma start_interview_unknown_candidate_witness :
  ~ In "C7" (map cand_id (candidates (sample_app [alice; bob]))) /\
  @start_interview _ SampleAgent (sample_app [alice; bob]) "C7"
    = (sample_app [alice; bob], Failure "Candidate not found").
Proof.
  split.
  - cbn. intros [E|[E|[]]]; discriminate E.
  - apply (start_interview_unknown_candidate _ SampleAgent
             (sample_app [alice; bob]) "C7").
    cbn. intros [E|[E|[]]]; discriminate E.
Defined.

(** C4: in every state in which no interview is in progress,
    [process_response] fails for every response text with the failure
    ["No interview in progress"], the application's rendering of
    NoSessionInProgressError, and the state is unchanged: the agent is not
    called and no response is recorded. *)
Theorem process_response_no_interview (agent : Type)
    (I : InterviewerAgent agent) (W : CandidateStore)
    (st : AIInterviewerApp agent) (text : string) :
  interview_in_progress st = false ->
  process_response st text = (st, Failure "No interview in progress").
Proof.
  intros Hf. unfold process_response. now rewrite Hf.
Qed.

Lemma process_response_no_interview_witness :
  @process_response _ SampleAgent SampleStore (sample_app [alice; bob])
                    "I listen first"
    = (sample_app [alice; bob], Failure "No interview in progress").
Proof.
  apply (process_response_no_interview _ SampleAgent SampleStore
           (sample_app [alice; bob]) "I listen first").
  reflexivity.
Defined.

Section Completion.
Context {agent : Type} `{InterviewerAgent agent} `{CandidateStore}.
Implicit Types (st : AIInterviewerApp agent).

(** What [_update_candidate_assessment] does when the current candidate is
    in the list. *)
Lemma update_candidate_assessment_found st cur c report :
  current_candidate st = Some cur ->
  find_candidate (candidates st) (cand_id cur) = Some c ->
  agent_get_candidate_assessment (interviewer st) = Return report ->
  _update_candidate_assessment st =
    (mkApp (interviewer st) (update_first (cand_id cur) report (candidates st))
           (Some cur) (interview_in_progress st),
     _save_candidates (update_first (cand_id cur) report (candidates st))).
Proof.
  intros Hcur Hfind Hrep. unfold _update_candidate_assessment.
  rewrite Hrep, Hcur.
  destruct (candidates st) as [|x xs]; [discriminate Hfind|reflexivity].
Qed.

Lemma update_candidate_assessment_flag st :
  interview_in_progress (fst (_update_candidate_assessment st))
    = interview_in_progress st.
Proof.
  unfold _update_candidate_assessment.
  destruct (agent_get_candidate_assessment _); [|reflexivity].
  destruct (candidates st); [reflexivity|].
  destruct (current_candidate st); reflexivity.
Qed.

Lemma update_candidate_assessment_list st :
  candidates (fst (_update_candidate_assessment st)) = candidates st \/
  exists target report,
    candidates (fst (_update_candidate_assessment st))
      = update_first target report (candidates st).
Proof.
  unfold _update_candidate_assessment.
  destruct (agent_get_candidate_assessment _) as [report|e]; [|now left].
  remember (candidates st) as cs eqn:Ecs. destruct cs as [|x xs].
  - left. cbn [fst]. now rewrite <- Ecs.
  - destruct (current_candidate st) as [cur|].
    + right. now exists (cand_id cur), report.
    + left. cbn [fst]. now rewrite <- Ecs.
Qed.

(** The state a call of [process_response] leaves when the agent returned a
    result without a next question. *)
Lemma process_response_last st text ag res :
  interview_in_progress st = true ->
  agent_process_response (interviewer st) text = (ag, Return res) ->
  next_question res = None ->
  fst (process_response st text)
    = fst (_update_candidate_assessment
             (mkApp ag (candidates st) (current_candidate st) false)).
Proof.
  intros Hflag Hag Hnext. unfold process_response.
  rewrite Hflag, Hag, Hnext. cbn [negb].
  destruct (_update_candidate_assessment _) as [st3 [u|e]]; reflexivity.
Qed.

(** The candidate list changes only in the step that completes the
    interview. *)
Lemma candidates_change_only_on_completion st text :
  candidates (fst (process_response st text)) = candidates st \/
  (interview_in_progress st = true /\
   exists res,
     snd (agent_process_response (interviewer st) text) = Return res /\
     next_question res = None /\
     interview_in_progress (fst (process_response st text)) = false).
Proof.
  destruct (interview_in_progress st) eqn:Ef.
  - destruct (agent_process_response (interviewer st) text) as [ag [res|e]] eqn:Ea.
    + destruct (next_question res) eqn:En.
      * left. unfold process_response. now rewrite Ef, Ea, En.
      * right. split; [reflexivity|]. exists res. repeat split; try assumption.
        rewrite (process_response_last st text ag res Ef Ea En).
        now rewrite update_candidate_assessment_flag.
    + left. unfold process_response. now rewrite Ef, Ea.
  - left. unfold process_response. now rewrite Ef.
Qed.
End Completion.

Lemma find_candidate_app cs extra cid c :
  find_candidate cs cid = Some c ->
  find_candidate (cs ++ extra) cid = Some c.
Proof.
  unfold find_candidate. induction cs as [|x xs IH]; [discriminate|].
  cbn [app find]. destruct (String.eqb (cand_id x) cid); [trivial|exact IH].
Qed.

Section SlotInvariant.
Context {agent : Type} `{InterviewerAgent agent} `{CandidateStore}.
Implicit Types (st : AIInterviewerApp agent).

Lemma slot_ok_initial (ag : agent) cs : slot_ok (mkApp ag cs None false).
Proof. intros Hf. discriminate Hf. Qed.

Lemma slot_ok_add_candidate today st info :
  slot_ok st -> slot_ok (fst (add_candidate today st info)).
Proof.
  intros Hok Hf. destruct (Hok Hf) as (cur & c & Hcur & Hfind).
  exists cur, c. split; [exact Hcur|].
  cbn [add_candidate fst candidates]. now apply find_candidate_app.
Qed.

Lemma slot_ok_start_interview st cid :
  slot_ok st -> slot_ok (fst (start_interview st cid)).
Proof.
  intros Hok. unfold start_interview.
  destruct (find_candidate (candidates st) cid) as [c|] eqn:Ef; [|exact Hok].
  cbn [focus_flags].
  destruct (agent_start_interview _ _ _ _) as [ag [q|e]];
    intros _; exists c, c; cbn [fst current_candidate candidates]; split;
    try reflexivity.
  all: unfold find_candidate in *; apply find_some in Ef as Hc;
    destruct Hc as [_ Hc]; apply String.eqb_eq in Hc; now rewrite Hc.
Qed.

Lemma slot_ok_process_response st text :
  slot_ok st -> slot_ok (fst (process_response st text)).
Proof.
  intros Hok. unfold process_response.
  destruct (interview_in_progress st) eqn:Ef; cbn [negb]; [|exact Hok].
  destruct (Hok Ef) as (cur & c & Hcur & Hfind).
  destruct (agent_process_response _ _) as [ag [res|e]].
  - destruct (next_question res).
    + intros _. exists cur, c. now split.
    + pose proof (update_candidate_assessment_flag
                    (mkApp ag (candidates st) (current_candidate st) false)) as Hfl.
      destruct (_update_candidate_assessment _) as [st3 [u|e]];
        cbn [fst interview_in_progress] in *; intros Ht; congruence.
  - intros _. exists cur, c. now split.
Qed.
End SlotInvariant.

(** The interview in progress in [sample_overtaken] is the one of [alice]:
    the session is hers.  The call of [process_response] that completes it
    succeeds with no next question, and afterwards her record is still the
    pending one without an assessment: the record of the candidate who owns
    the session is not the one that gets the assessment. *)
Lemma completion_misses_session_owner :
  (exists ses,
      agent_session (interviewer sample_overtaken) = Some ses /\
      session_candidate_id ses = cand_id alice /\
      session_status ses = InProgress) /\
  (exists res,
      snd (@process_response _ SampleAgent SampleStore sample_overtaken
             "I listen first") = Success res /\
      next_question res = None) /\
  ~ (exists owner,
        get_candidate_details
          (fst (@process_response _ SampleAgent SampleStore sample_overtaken
                  "I listen first")) (cand_id alice) = Some owner /\
        cand_status owner = "Interviewed" /\
        cand_assessment owner <> None).
Proof.
  split; [|split].
  - eexists. repeat split.
  - eexists. split; reflexivity.
  - intros (owner & Hdet & Hstatus & _).
    vm_compute in Hdet. injection Hdet as <-. discriminate Hstatus.
Qed.

(** C5 (as amended): when [process_response] gets no next question from the
    agent, then in that same step [interview_in_progress] is cleared and the
    record of the application's current candidate (the first record carrying
    the id of [current_candidate], the one the last [start_interview]
    picked) gets the status "Interviewed", whatever it was before, and the
    assessment the agent computed; all other records are untouched.  The
    call answers with success when the closing write of the file goes
    through; when that write raises, its exception escapes with the record
    already rewritten.  No other step writes to the candidate list: a call
    of [process_response] that changes it is one in which the agent returned
    no next question, and [start_interview] never changes it. *)
Theorem process_response_completion (agent : Type) (I : InterviewerAgent agent)
    (W : CandidateStore)
    (st : AIInterviewerApp agent) (text : string) (cur c : Candidate)
    (res : SubmitResult) (report : AssessmentReport) :
  interview_in_progress st = true ->
  current_candidate st = Some cur ->
  find_candidate (candidates st) (cand_id cur) = Some c ->
  snd (agent_process_response (interviewer st) text) = Return res ->
  next_question res = None ->
  agent_get_candidate_assessment
    (fst (agent_process_response (interviewer st) text)) = Return report ->
  (exists pre post,
      candidates st = (pre ++ c :: post)%list /\
      (forall x, In x pre -> cand_id x <> cand_id cur) /\
      process_response st text =
        (mkApp (fst (agent_process_response (interviewer st) text))
               (pre ++ attach_assessment report c :: post)%list
               (Some cur) false,
         match _save_candidates (pre ++ attach_assessment report c :: post)%list with
         | Return _ => Success res
         | Raise e => Raised e
         end) /\
      cand_id (attach_assessment report c) = cand_id cur /\
      cand_status (attach_assessment report c) = "Interviewed" /\
      cand_assessment (attach_assessment report c)
        = Some (report_assessment report)) /\
  (forall (st0 : AIInterviewerApp agent) (text0 : string),
      candidates (fst (process_response st0 text0)) = candidates st0 \/
      (interview_in_progress st0 = true /\
       exists res0,
         snd (agent_process_response (interviewer st0) text0) = Return res0 /\
         next_question res0 = None /\
         interview_in_progress (fst (process_response st0 text0)) = false)) /\
  (forall (st0 : AIInterviewerApp agent) (cid : string),
      candidates (fst (start_interview st0 cid)) = candidates st0).
Proof.
  intros Hflag Hcur Hfind Hres Hnext Hrep.
  split; [|split; [apply candidates_change_only_on_completion
                  |apply start_interview_candidates]].
  destruct (find_candidate_split _ _ _ Hfind) as (pre & post & Hcs & Hid & Hpre & Hup).
  exists pre, post. repeat split; try assumption.
  unfold process_response. rewrite Hflag. cbn [negb].
  destruct (agent_process_response (interviewer st) text) as [ag r].
  cbn [fst snd] in *. subst r. rewrite Hnext.
  rewrite (update_candidate_assessment_found _ cur c report); try assumption.
  cbn [interviewer candidates current_candidate interview_in_progress].
  rewrite Hup.
  destruct (_save_candidates (pre ++ attach_assessment report c :: post));
    reflexivity.
Qed.

Lemma process_response_completion_witness :
  exists pre post,
    candidates sample_started = (pre ++ alice :: post)%list /\
    (forall x, In x pre -> cand_id x <> cand_id alice) /\
    @process_response _ SampleAgent ReadOnlyStore sample_started
                      "I listen first" =
      (mkApp (mkAgent tt (Some sample_finished_session))
             (pre ++ attach_assessment (aggregate sample_finished_session) alice
                  :: post)%list
             (Some alice) false,
       match @_save_candidates ReadOnlyStore
               (pre ++ attach_assessment (aggregate sample_finished_session) alice
                    :: post)%list with
       | Return _ => Success sample_result
       | Raise e => Raised e
       end) /\
    cand_id (attach_assessment (aggregate sample_finished_session) alice)
      = cand_id alice /\
    cand_status (attach_assessment (aggregate sample_finished_session) alice)
      = "Interviewed" /\
    cand_assessment (attach_assessment (aggregate sample_finished_session) alice)
      = Some (report_assessment (aggregate sample_finished_session)).
Proof.
  apply (process_response_completion _ SampleAgent ReadOnlyStore sample_started
           "I listen first" alice alice sample_result
           (aggregate sample_finished_session)); reflexivity.
Defined.

Example process_response_completion_example :
  @process_response _ SampleAgent SampleStore sample_started "I listen first"
  = (mkApp (mkAgent tt (Some sample_finished_session))
           [attach_assessment (aggregate sample_finished_session) alice; bob]
           (Some alice) false,
     Success sample_result) /\
  @process_response _ SampleAgent ReadOnlyStore sample_started "I listen first"
  = (mkApp (mkAgent tt (Some sample_finished_session))
           [attach_assessment (aggregate sample_finished_session) alice; bob]
           (Some alice) false,
     Raised OSError).
Proof. split; reflexivity. Qed.

Example start_interview_example :
  @start_interview _ SampleAgent (sample_app [alice; bob]) "C1"
    = (sample_started, Success (Some sample_behavioral_question)).
Proof. reflexivity. Qed.

(** ** Focus flags *)







(** With a bank that holds no question, the selection fails although
    [behavioral_focus] is set. *)
Example select_empty_bank_example :
  select (mkBank [] []) false true = Raise EmptySelectionError /\
  select (mkBank [] []) true true = Raise EmptySelectionError /\
  select sample_bank false true = Return [sample_behavioral_question] /\
  select (mkBank [sample_technical_question] []) true true
    = Return [sample_technical_question].
Proof. repeat split. Qed.

(** ** The agent of the specification behind the application *)

(** C2: with the agent of the specification, for every session in progress
    the empty response text makes [process_response] fail with
    [EmptyResponseError]; the whole state is unchanged by the failed call, so
    the evaluator (whose state is part of it) was not consulted and the
    question queue has the length it had. *)
Theorem process_response_empty_text (bank : QuestionBank) (evaluator : Type)
    (evaluate : evaluator -> Question -> string -> evaluator * result Evaluation)
    (W : CandidateStore)
    (st : AIInterviewerApp (SessionAgent evaluator)) (ses : InterviewSession) :
  interview_in_progress st = true ->
  agent_session (interviewer st) = Some ses ->
  session_status ses = InProgress ->
  @process_response _ (SpecAgent bank evaluator evaluate) W st ""
    = (st, Raised EmptyResponseError).
Proof.
  intros Hflag Hses Hstat. destruct st as [ag cs cur flag].
  cbn [interview_in_progress interviewer] in Hflag, Hses. subst flag.
  unfold process_response.
  cbn [interview_in_progress interviewer candidates current_candidate negb
       agent_process_response SpecAgent].
  unfold session_submit. rewrite Hses, Hstat. reflexivity.
Qed.

Lemma process_response_empty_text_witness :
  @process_response _ SampleAgent SampleStore sample_started ""
    = (sample_started, Raised EmptyResponseError).
Proof.
  apply (process_response_empty_text sample_bank unit sample_evaluate SampleStore
           sample_started
           (mkSession "C1" [sample_behavioral_question] [] InProgress));
    reflexivity.
Defined.

(** While the interview of [alice] is in progress, [start_interview] for
    [bob] fails with [NoActiveCandidateError], yet the current candidate is
    [bob] afterwards: the claim that the call fails and leaves the interview
    in flight as it was does not hold. *)
Lemma start_interview_replaces_current_candidate :
  interview_in_progress sample_started = true /\
  current_candidate sample_started = Some alice /\
  agent_session (interviewer sample_started)
    = Some (mkSession "C1" [sample_behavioral_question] [] InProgress) /\
  ~ (snd (@start_interview _ SampleAgent sample_started "C2")
       = Raised NoActiveCandidateError /\
     current_candidate (fst (@start_interview _ SampleAgent sample_started "C2"))
       = current_candidate sample_started).
Proof.
  repeat split. intros [_ Hcur]. discriminate Hcur.
Qed.

(** What follows from it: the answers given in the session of [alice] end up
    as the assessment of [bob], and [alice] stays pending. *)
Example start_interview_conflict_example :
  candidates
    (fst (@process_response _ SampleAgent SampleStore
            (fst (@start_interview _ SampleAgent sample_started "C2"))
            "I listen first"))
  = [alice; attach_assessment (aggregate sample_finished_session) bob].
Proof. reflexivity. Qed.

(** C3 (as amended): with the agent of the specification, when a session is
    in progress for candidate A, [start_interview] for a candidate B of the
    candidate list with another id fails with [NoActiveCandidateError] and
    leaves the agent with its session for A, the candidate list and the
    raised flag as they are, but the current candidate of the application is
    B afterwards. *)
Theorem start_interview_conflict (bank : QuestionBank) (evaluator : Type)
    (evaluate : evaluator -> Question -> string -> evaluator * result Evaluation)
    (st : AIInterviewerApp (SessionAgent evaluator)) (ses : InterviewSession)
    (cid : string) (b : Candidate) :
  agent_session (interviewer st) = Some ses ->
  session_status ses = InProgress ->
  session_candidate_id ses <> cid ->
  find_candidate (candidates st) cid = Some b ->
  @start_interview _ (SpecAgent bank evaluator evaluate) st cid
    = (mkApp (interviewer st) (candidates st) (Some b) true,
       Raised NoActiveCandidateError).
Proof.
  intros Hses Hstat Hne Hfind. unfold start_interview. rewrite Hfind.
  cbn [focus_flags agent_start_interview SpecAgent]. unfold session_start.
  rewrite Hses, Hstat. apply String.eqb_neq in Hne. rewrite Hne.
  reflexivity.
Qed.

Lemma start_interview_conflict_witness :
  @start_interview _ SampleAgent sample_started "C2"
    = (mkApp (interviewer sample_started) (candidates sample_started)
             (Some bob) true,
       Raised NoActiveCandidateError).
Proof.
  apply (start_interview_conflict sample_bank unit sample_evaluate
           sample_started
           (mkSession "C1" [sample_behavioral_question] [] InProgress)
           "C2" bob); try reflexivity.
  discriminate.
Defined.

(** ** Recommendation *)

(** C7: the recommendation is "Not Recommended" iff the overall score is
    below 0.5, "Consider" iff it is at least 0.5 and below 0.65,
    "Recommended" iff it is at least 0.65 and below 0.8, and "Strongly
    Recommended" iff it is at least 0.8; 0.65 maps to "Recommended", 0.8 to
    "Strongly Recommended" and 0.649999 to "Consider". *)
Theorem recommend_buckets (s : Q) :
  (recommend s = "Not Recommended" <-> s < 1 # 2) /\
  (recommend s = "Consider" <-> 1 # 2 <= s /\ s < 13 # 20) /\
  (recommend s = "Recommended" <-> 13 # 20 <= s /\ s < 4 # 5) /\
  (recommend s = "Strongly Recommended" <-> 4 # 5 <= s) /\
  recommend (65 # 100) = "Recommended" /\
  recommend (8 # 10) = "Strongly Recommended" /\
  recommend (649999 # 1000000) = "Consider".
Proof.
  unfold recommend.
  destruct (Qltb s (1 # 2)) eqn:E1;
    [apply Qltb_true in E1 | apply Qltb_false in E1];
  (destruct (Qltb s (13 # 20)) eqn:E2;
    [apply Qltb_true in E2 | apply Qltb_false in E2]);
  (destruct (Qltb s (4 # 5)) eqn:E3;
    [apply Qltb_true in E3 | apply Qltb_false in E3]);
  repeat split; intros; try discriminate; try reflexivity; try lra.
Qed.

(** The scenario of the specification: three technical answers scored 0.9,
    0.8 and 0.7 and no behavioral question. *)
Example aggregate_example :
  let answered (s : Q) :=
    (sample_technical_question,
     mkResponse "Explain Big O notation" "It bounds growth" s "ok" None) in
  let report :=
    aggregate (mkSession "C1" []
                 [answered (9 # 10); answered (8 # 10); answered (7 # 10)]
                 Completed) in
  overall_technical_score (report_assessment report) == 4 # 5 /\
  overall_behavioral_score (report_assessment report) == 0 /\
  overall_score (report_assessment report) == 4 # 5 /\
  recommendation (report_assessment report) = "Strongly Recommended".
Proof. repeat split. Qed.

(** A submitted answer moves one question from the queue to the responses. *)
Lemma session_submit_conserves (bank : QuestionBank) (evaluator : Type)
    (evaluate : evaluator -> Question -> string -> evaluator * result Evaluation)
    (ag : SessionAgent evaluator) (text : string) (ses ses' : InterviewSession) :
  agent_session ag = Some ses ->
  agent_session (fst (session_submit evaluator evaluate ag text)) = Some ses' ->
  (List.length (session_completed ses') + List.length (session_queue ses')
   = List.length (session_completed ses) + List.length (session_queue ses))%nat.
Proof.
  intros Hs. unfold session_submit. rewrite Hs.
  destruct (negb (is_in_progress (session_status ses))).
  { cbn [fst]. rewrite Hs. now intros [= <-]. }
  destruct (String.eqb text "").
  { cbn [fst]. rewrite Hs. now intros [= <-]. }
  destruct ses as [cid queue done status].
  cbn [session_queue session_completed session_candidate_id] in *.
  destruct queue as [|q rest].
  { cbn [fst]. rewrite Hs. now intros [= <-]. }
  destruct (evaluate (agent_evaluator ag) q text) as [ev [x|e]];
    cbn [fst agent_session].
  - intros [= <-]. cbn [session_completed session_queue].
    rewrite length_app. cbn [List.length]. lia.
  - now intros [= <-].
Qed.

(** ** Looking a candidate up *)

Lemma find_candidate_some cs c :
  In c cs -> find_candidate cs (cand_id c) <> None.
Proof.
  intros Hin Hnone. unfold find_candidate in Hnone.
  eapply find_none in Hnone; [|exact Hin].
  cbn in Hnone. now rewrite String.eqb_refl in Hnone.
Qed.

Lemma find_candidate_none_iff cs cid :
  find_candidate cs cid = None <-> ~ In cid (map cand_id cs).
Proof.
  split; [|apply find_candidate_none].
  intros Hnone Hin. apply in_map_iff in Hin. destruct Hin as (c & <- & Hc).
  exact (find_candidate_some cs c Hc Hnone).
Qed.

(** X1: [get_candidate_details] returns [None] exactly when no record of
    the list carries the id; otherwise it returns the first record that
    carries it. *)
Theorem get_candidate_details_first (agent : Type)
    (st : AIInterviewerApp agent) (cid : string) :
  (get_candidate_details st cid = None <->
     ~ In cid (map cand_id (candidates st))) /\
  (forall c, get_candidate_details st cid = Some c ->
     exists pre post,
       candidates st = (pre ++ c :: post)%list /\
       cand_id c = cid /\
       forall x, In x pre -> cand_id x <> cid).
Proof.
  split; [apply find_candidate_none_iff|].
  intros c Hc. destruct (find_candidate_split _ _ _ Hc)
    as (pre & post & Hcs & Hid & Hpre & _).
  now exists pre, post.
Qed.

(** X2: [start_interview] answers "Candidate not found" exactly when
    [get_candidate_details] finds nothing for the id. *)
Theorem start_interview_not_found_iff (agent : Type) (I : InterviewerAgent agent)
    (st : AIInterviewerApp agent) (cid : string) :
  snd (start_interview st cid) = Failure "Candidate not found" <->
  get_candidate_details st cid = None.
Proof.
  unfold start_interview, get_candidate_details.
  destruct (find_candidate (candidates st) cid) as [c|]; [|now split].
  cbn [focus_flags].
  destruct (agent_start_interview _ _ _ _) as [ag [q|e]]; split; discriminate.
Qed.

(** X3: when the id is found, [start_interview] leaves the flag raised and
    the found record as current candidate whatever the agent does, also when
    the agent raises and the call fails; the candidate list is not touched. *)
Theorem start_interview_marks_slot (agent : Type) (I : InterviewerAgent agent)
    (st : AIInterviewerApp agent) (cid : string) (c : Candidate) :
  get_candidate_details st cid = Some c ->
  interview_in_progress (fst (start_interview st cid)) = true /\
  current_candidate (fst (start_interview st cid)) = Some c /\
  candidates (fst (start_interview st cid)) = candidates st /\
  (forall e, snd (agent_start_interview (interviewer st) cid
                    (technical_focus_of c) true) = Raise e ->
             snd (start_interview st cid) = Raised e).
Proof.
  unfold start_interview, get_candidate_details. intros ->.
  cbn [focus_flags].
  destruct (agent_start_interview _ _ _ _) as [ag [q|e]]; cbn [fst snd];
    repeat split; intros e' [=]; now subst.
Qed.

Lemma start_interview_marks_slot_witness :
  interview_in_progress (fst (@start_interview _ SampleAgent sample_started "C2"))
    = true /\
  current_candidate (fst (@start_interview _ SampleAgent sample_started "C2"))
    = Some bob /\
  candidates (fst (@start_interview _ SampleAgent sample_started "C2"))
    = candidates sample_started /\
  (forall e, snd (@agent_start_interview _ SampleAgent (interviewer sample_started)
                    "C2" (technical_focus_of bob) true) = Raise e ->
             snd (@start_interview _ SampleAgent sample_started "C2") = Raised e).
Proof.
  apply (start_interview_marks_slot _ SampleAgent sample_started "C2" bob).
  reflexivity.
Defined.

(** ** Adding a candidate *)

Lemma add_candidate_eq (agent : Type) today (st : AIInterviewerApp agent) info :
  add_candidate today st info =
    (mkApp (interviewer st)
           (candidates st ++
              [new_record today (format_id (S (List.length (candidates st)))) info])
           (current_candidate st) (interview_in_progress st),
     format_id (S (List.length (candidates st)))).
Proof.
  unfold add_candidate, new_record.
  now replace (List.length (candidates st) + 1)%nat
    with (S (List.length (candidates st))) by lia.
Qed.

Lemma find_candidate_app_none cs extra cid :
  find_candidate cs cid = None ->
  find_candidate (cs ++ extra) cid = find_candidate extra cid.
Proof.
  unfold find_candidate. induction cs as [|x xs IH]; [reflexivity|].
  cbn [app find]. destruct (String.eqb (cand_id x) cid); [discriminate|exact IH].
Qed.

(** X4: when no record carries the id that [add_candidate] hands out,
    looking the returned id up afterwards gives the new record: the form
    data, the returned id, status "Pending" and no assessment.  Every lookup
    that found a record before finds the same record afterwards. *)
Theorem add_candidate_then_details (agent : Type) (today : string)
    (st : AIInterviewerApp agent) (info : CandidateInfo) :
  get_candidate_details st (format_id (S (List.length (candidates st)))) = None ->
  get_candidate_details (fst (add_candidate today st info))
                        (snd (add_candidate today st info))
    = Some (new_record today (snd (add_candidate today st info)) info) /\
  (forall cid c,
      get_candidate_details st cid = Some c ->
      get_candidate_details (fst (add_candidate today st info)) cid = Some c).
Proof.
  intros Hfresh. rewrite add_candidate_eq. cbn [fst snd].
  unfold get_candidate_details in *. cbn [candidates]. split.
  - rewrite find_candidate_app_none by exact Hfresh.
    unfold find_candidate. cbn [find new_record cand_id].
    now rewrite String.eqb_refl.
  - intros cid c Hc. now apply find_candidate_app.
Qed.

Lemma add_candidate_then_details_witness :
  get_candidate_details
    (fst (add_candidate "2024-01-01" (sample_app [alice; bob])
                        (sample_info "Carol" "Data Scientist")))
    (snd (add_candidate "2024-01-01" (sample_app [alice; bob])
                        (sample_info "Carol" "Data Scientist")))
  = Some (new_record "2024-01-01"
            (snd (add_candidate "2024-01-01" (sample_app [alice; bob])
                                (sample_info "Carol" "Data Scientist")))
            (sample_info "Carol" "Data Scientist")) /\
  (forall cid c,
      get_candidate_details (sample_app [alice; bob]) cid = Some c ->
      get_candidate_details
        (fst (add_candidate "2024-01-01" (sample_app [alice; bob])
                            (sample_info "Carol" "Data Scientist"))) cid = Some c).
Proof.
  apply (add_candidate_then_details _ "2024-01-01" (sample_app [alice; bob])
           (sample_info "Carol" "Data Scientist")).
  reflexivity.
Defined.

(** X5: when a record of the list already carries the id that
    [add_candidate] hands out (the id only counts the records, so a loaded
    list can hold it), the new record is appended all the same, and looking
    the returned id up afterwards gives the older record, not the new one. *)
Theorem add_candidate_id_collision (agent : Type) (today : string)
    (st : AIInterviewerApp agent) (info : CandidateInfo) (old : Candidate) :
  get_candidate_details st (format_id (S (List.length (candidates st)))) = Some old ->
  candidates (fst (add_candidate today st info))
    = (candidates st ++ [new_record today (snd (add_candidate today st info)) info])%list /\
  get_candidate_details (fst (add_candidate today st info))
                        (snd (add_candidate today st info)) = Some old /\
  In old (candidates st) /\
  cand_id old = snd (add_candidate today st info).
Proof.
  intros Hold. rewrite add_candidate_eq. cbn [fst snd candidates].
  unfold get_candidate_details in *. cbn [candidates].
  repeat split.
  - now apply find_candidate_app.
  - unfold find_candidate in Hold. now apply find_some in Hold.
  - unfold find_candidate in Hold. apply find_some in Hold.
    now apply String.eqb_eq.
Qed.

Lemma add_candidate_id_collision_witness :
  candidates (fst (add_candidate "2024-01-01" (sample_app [bob])
                                 (sample_info "Carol" "Other")))
    = ([bob] ++ [new_record "2024-01-01"
                   (snd (add_candidate "2024-01-01" (sample_app [bob])
                                       (sample_info "Carol" "Other")))
                   (sample_info "Carol" "Other")])%list /\
  get_candidate_details
    (fst (add_candidate "2024-01-01" (sample_app [bob])
                        (sample_info "Carol" "Other")))
    (snd (add_candidate "2024-01-01" (sample_app [bob])
                        (sample_info "Carol" "Other"))) = Some bob /\
  In bob [bob] /\
  cand_id bob = snd (add_candidate "2024-01-01" (sample_app [bob])
                                   (sample_info "Carol" "Other")).
Proof.
  apply (add_candidate_id_collision _ "2024-01-01" (sample_app [bob])
           (sample_info "Carol" "Other") bob).
  reflexivity.
Defined.

(** ** Ranking and the other methods *)

Lemma rankings_candidates (agent : Type) (st st' : AIInterviewerApp agent) :
  filter has_assessment (candidates st') = filter has_assessment (candidates st) ->
  get_candidate_rankings st' = get_candidate_rankings st.
Proof. unfold get_candidate_rankings. now intros ->. Qed.

(** X6: a candidate that was just added does not change the ranking, and
    neither does starting an interview. *)
Theorem rankings_ignore_add_and_start (agent : Type) (I : InterviewerAgent agent)
    (st : AIInterviewerApp agent) (today : string) (info : CandidateInfo)
    (cid : string) :
  get_candidate_rankings (fst (add_candidate today st info))
    = get_candidate_rankings st /\
  get_candidate_rankings (fst (start_interview st cid))
    = get_candidate_rankings st.
Proof.
  split; apply rankings_candidates.
  - rewrite add_candidate_eq. cbn [fst candidates].
    rewrite filter_app. cbn. now rewrite app_nil_r.
  - now rewrite start_interview_candidates.
Qed.

Lemma find_candidate_middle pre c post cid :
  (forall x, In x pre -> cand_id x <> cid) -> cand_id c = cid ->
  find_candidate (pre ++ c :: post) cid = Some c.
Proof.
  intros Hpre Hc. unfold find_candidate.
  induction pre as [|x xs IH]; cbn [app find].
  - apply String.eqb_eq in Hc. now rewrite Hc.
  - assert (Hx : String.eqb (cand_id x) cid = false).
    { apply String.eqb_neq, Hpre. now left. }
    rewrite Hx. apply IH. intros y Hy. apply Hpre. now right.
Qed.

(** The state [process_response] leaves when the agent has no next
    question. *)
Lemma process_response_completes (agent : Type) (I : InterviewerAgent agent)
    (W : CandidateStore)
    (st : AIInterviewerApp agent) text cur c res report :
  interview_in_progress st = true ->
  current_candidate st = Some cur ->
  find_candidate (candidates st) (cand_id cur) = Some c ->
  snd (agent_process_response (interviewer st) text) = Return res ->
  next_question res = None ->
  agent_get_candidate_assessment
    (fst (agent_process_response (interviewer st) text)) = Return report ->
  fst (process_response st text) =
    mkApp (fst (agent_process_response (interviewer st) text))
          (update_first (cand_id cur) report (candidates st))
          (Some cur) false.
Proof.
  intros Hflag Hcur Hfind Hres Hnext Hrep.
  destruct (agent_process_response (interviewer st) text) as [ag r] eqn:Ea.
  cbn [fst snd] in *. subst r.
  rewrite (process_response_last st text ag res Hflag Ea Hnext).
  now rewrite (update_candidate_assessment_found _ cur c report).
Qed.

(** X7: once [process_response] has completed an interview, looking the
    current candidate's id up gives the record with the assessment, that
    record is in the ranking, and it is no longer offered as pending. *)
Theorem completed_candidate_is_ranked (agent : Type) (I : InterviewerAgent agent)
    (W : CandidateStore)
    (st : AIInterviewerApp agent) (text : string) (cur c : Candidate)
    (res : SubmitResult) (report : AssessmentReport) :
  interview_in_progress st = true ->
  current_candidate st = Some cur ->
  get_candidate_details st (cand_id cur) = Some c ->
  snd (agent_process_response (interviewer st) text) = Return res ->
  next_question res = None ->
  agent_get_candidate_assessment
    (fst (agent_process_response (interviewer st) text)) = Return report ->
  get_candidate_details (fst (process_response st text)) (cand_id cur)
    = Some (attach_assessment report c) /\
  (exists r, get_candidate_rankings (fst (process_response st text)) = Return r /\
             In (attach_assessment report c) r) /\
  ~ In (attach_assessment report c) (pending_candidates (fst (process_response st text))).
Proof.
  intros Hflag Hcur Hfind Hres Hnext Hrep. unfold get_candidate_details in *.
  rewrite (process_response_completes _ I W st text cur c res report) by assumption.
  destruct (find_candidate_split _ _ _ Hfind) as (pre & post & Hcs & Hid & Hpre & Hup).
  cbn [candidates]. rewrite Hup.
  assert (Hfound : find_candidate (pre ++ attach_assessment report c :: post)
                                  (cand_id cur) = Some (attach_assessment report c)).
  { apply find_candidate_middle; assumption. }
  split; [exact Hfound|]. split.
  - destruct (rankings_spec
                (mkApp (fst (agent_process_response (interviewer st) text))
                       (pre ++ attach_assessment report c :: post)%list
                       (Some cur) false)) as (r & Hr & Hp & _).
    exists r. split; [exact Hr|].
    eapply Permutation_in; [apply Permutation_sym, Hp|].
    apply filter_In. split; [|reflexivity].
    cbn [candidates]. apply in_or_app. right. now left.
  - unfold pending_candidates. intros Hin. apply filter_In in Hin.
    destruct Hin as [_ Hp]. discriminate Hp.
Qed.

Lemma completed_candidate_is_ranked_witness :
  get_candidate_details
    (fst (@process_response _ SampleAgent SampleStore sample_started "I listen first"))
    (cand_id alice)
    = Some (attach_assessment (aggregate sample_finished_session) alice) /\
  (exists r,
      get_candidate_rankings
        (fst (@process_response _ SampleAgent SampleStore sample_started "I listen first"))
        = Return r /\
      In (attach_assessment (aggregate sample_finished_session) alice) r) /\
  ~ In (attach_assessment (aggregate sample_finished_session) alice)
       (pending_candidates
          (fst (@process_response _ SampleAgent SampleStore sample_started "I listen first"))).
Proof.
  apply (completed_candidate_is_ranked _ SampleAgent SampleStore sample_started
           "I listen first" alice alice sample_result
           (aggregate sample_finished_session)); reflexivity.
Defined.

(** ** More on the ranking *)

Section SortedInput.
Context {A : Type}.

Lemma insert_stable_least (x : Q * A) (l : list (Q * A)) :
  Forall (key_le x) l -> insert_stable x l = x :: l.
Proof.
  destruct l as [|y ys]; [reflexivity|].
  intros Hall. apply Forall_inv in Hall. cbn [insert_stable].
  unfold key_le in Hall. apply Qltb_false in Hall. now rewrite Hall.
Qed.

(** The stable sort leaves a sorted list as it is. *)
Lemma list_sort_of_sorted (l : list (Q * A)) :
  StronglySorted key_le l -> list_sort l = l.
Proof.
  induction 1 as [|x xs Hs IH Hall]; [reflexivity|].
  cbn [list_sort]. rewrite IH. now apply insert_stable_least.
Qed.

Lemma rev_sorted_ge (l : list (Q * A)) :
  StronglySorted key_ge l -> StronglySorted key_le (rev l).
Proof.
  induction 1 as [|x xs Hs IH Hall]; cbn [rev]; [constructor|].
  apply sorted_snoc; [exact IH|]. apply Forall_rev. exact Hall.
Qed.

Lemma sort_desc_of_sorted (l : list (Q * A)) :
  StronglySorted key_ge l -> rev (list_sort (rev l)) = l.
Proof.
  intros Hs. rewrite list_sort_of_sorted by now apply rev_sorted_ge.
  apply rev_involutive.
Qed.
End SortedInput.

Lemma keyed_sorted_inv kl :
  Forall keyed kl -> StronglySorted score_ge (map snd kl) ->
  StronglySorted key_ge kl.
Proof.
  induction kl as [|p ps IH]; cbn [map]; intros Hk Hs; [constructor|].
  apply Forall_cons_iff in Hk. destruct Hk as [Hp Hk].
  apply StronglySorted_inv in Hs. destruct Hs as [Hs Hall].
  constructor; [now apply IH|].
  apply Forall_forall. intros q Hq.
  rewrite Forall_forall in Hall, Hk.
  specialize (Hall (snd q) (in_map snd _ _ Hq)). specialize (Hk q Hq).
  unfold score_ge, keyed in *. now rewrite Hp, Hk in Hall.
Qed.

Lemma sorted_of_ranked l :
  Forall (fun c => has_assessment c = true) l ->
  StronglySorted score_ge l ->
  sorted score_key true l = Return l.
Proof.
  intros Hl Hs. destruct (decorate_assessed l Hl) as (kl & Hd & Hm & Hk).
  unfold sorted. rewrite Hd. rewrite <- Hm in Hs.
  rewrite sort_desc_of_sorted by now apply keyed_sorted_inv.
  now rewrite Hm.
Qed.

(** X8: ranking a ranking changes nothing: when the candidate list is
    replaced by the list [get_candidate_rankings] returned, the method
    returns that list again, in the same order. *)
Theorem rankings_idempotent (agent : Type) (st : AIInterviewerApp agent)
    (r : list Candidate) :
  get_candidate_rankings st = Return r ->
  get_candidate_rankings
    (mkApp (interviewer st) r (current_candidate st) (interview_in_progress st))
    = Return r.
Proof.
  intros Hr. destruct (rankings_spec st) as (r' & Hr' & Hp & Hs & _).
  rewrite Hr in Hr'. injection Hr' as <-.
  assert (Hall : Forall (fun c => has_assessment c = true) r).
  { eapply Permutation_Forall; [apply Permutation_sym, Hp|apply filter_assessed]. }
  unfold get_candidate_rankings. cbn [candidates].
  assert (Hfil : filter has_assessment r = r).
  { apply forallb_filter_id, forallb_forall. now rewrite Forall_forall in Hall. }
  rewrite Hfil. destruct r as [|c cs]; [reflexivity|].
  now apply sorted_of_ranked.
Qed.

Lemma rankings_idempotent_witness :
  get_candidate_rankings
    (mkApp (interviewer (sample_app [alice]))
           [sample_candidate "C3" "Other" (Some (sample_assessment (9 # 10)));
            sample_candidate "C1" "Other" (Some (sample_assessment (7 # 10)))]
           None false)
  = Return [sample_candidate "C3" "Other" (Some (sample_assessment (9 # 10)));
            sample_candidate "C1" "Other" (Some (sample_assessment (7 # 10)))].
Proof.
  apply (rankings_idempotent _
           (sample_app [sample_candidate "C1" "Other" (Some (sample_assessment (7 # 10)));
                        sample_candidate "C2" "Other" None;
                        sample_candidate "C3" "Other" (Some (sample_assessment (9 # 10)))])).
  reflexivity.
Defined.

(** X9: the ranking has as many entries as there are assessed candidates; it
    is empty exactly when no candidate of the list has an assessment. *)
Theorem rankings_size (agent : Type) (st : AIInterviewerApp agent) :
  exists r,
    get_candidate_rankings st = Return r /\
    List.length r = List.length (filter has_assessment (candidates st)) /\
    (List.length r <= List.length (candidates st))%nat /\
    (r = [] <-> forall c, In c (candidates st) -> cand_assessment c = None).
Proof.
  destruct (rankings_spec st) as (r & Hr & Hp & _).
  exists r. split; [exact Hr|]. split; [now apply Permutation_length|].
  split.
  - rewrite (Permutation_length Hp). apply filter_length_le.
  - split.
    + intros -> c Hc. destruct (cand_assessment c) as [a|] eqn:Ea; [|reflexivity].
      exfalso. apply Permutation_nil in Hp.
      assert (Hin : In c (filter has_assessment (candidates st))).
      { apply filter_In. split; [exact Hc|]. unfold has_assessment. now rewrite Ea. }
      now rewrite Hp in Hin.
    + intros Hnone. destruct r as [|c cs]; [reflexivity|].
      assert (Hin : In c (filter has_assessment (candidates st))).
      { eapply Permutation_in; [exact Hp|now left]. }
      apply filter_In in Hin. destruct Hin as [Hc Ha].
      unfold has_assessment in Ha. now rewrite (Hnone c Hc) in Ha.
Qed.

(** ** Sequences of calls *)

Lemma update_first_length target report cs :
  List.length (update_first target report cs) = List.length cs.
Proof.
  induction cs as [|c rest IH]; [reflexivity|].
  cbn [update_first]. destruct (String.eqb (cand_id c) target); cbn [List.length];
    [reflexivity|now rewrite IH].
Qed.

Lemma evolves_refl c : evolves c c.
Proof. now split. Qed.

Lemma evolves_trans a b c : evolves a b -> evolves b c -> evolves a c.
Proof.
  intros [Hi1 Ha1] [Hi2 Ha2]. split; [congruence|auto].
Qed.

Lemma Forall2_evolves_refl cs : Forall2 evolves cs cs.
Proof. induction cs; constructor; [apply evolves_refl|assumption]. Qed.

Lemma Forall2_evolves_trans l1 l2 l3 :
  Forall2 evolves l1 l2 -> Forall2 evolves l2 l3 -> Forall2 evolves l1 l3.
Proof.
  intros H12. revert l3. induction H12 as [|a b l1 l2 Hab H12 IH]; intros l3 H23.
  - inversion H23. constructor.
  - inversion H23 as [|b' c l2' l3' Hbc H23']; subst.
    constructor; [eapply evolves_trans; eassumption|now apply IH].
Qed.

Lemma update_first_evolves target report cs :
  Forall2 evolves cs (update_first target report cs).
Proof.
  induction cs as [|c rest IH]; [constructor|].
  cbn [update_first]. destruct (String.eqb (cand_id c) target).
  - constructor; [|apply Forall2_evolves_refl]. split; reflexivity.
  - constructor; [apply evolves_refl|exact IH].
Qed.

Lemma update_first_ids target report cs :
  map cand_id (update_first target report cs) = map cand_id cs.
Proof.
  induction cs as [|c rest IH]; [reflexivity|].
  cbn [update_first]. destruct (String.eqb (cand_id c) target); cbn [map];
    [reflexivity|now rewrite IH].
Qed.

Lemma update_first_status_ok target report cs :
  Forall status_ok cs -> Forall status_ok (update_first target report cs).
Proof.
  induction 1 as [|c rest Hc Hrest IH]; [constructor|].
  cbn [update_first]. destruct (String.eqb (cand_id c) target).
  - constructor; [|exact Hrest]. right. cbn. repeat split; discriminate.
  - constructor; assumption.
Qed.

Section Steps.
Context {agent : Type} `{InterviewerAgent agent} `{CandidateStore}.
Implicit Types (st : AIInterviewerApp agent).

(** What one call can do to the candidate list: append a new record, leave
    the list alone, or attach an assessment to one record. *)
Lemma process_response_list st text :
  candidates (fst (process_response st text)) = candidates st \/
  exists target report,
    candidates (fst (process_response st text))
      = update_first target report (candidates st).
Proof.
  destruct (interview_in_progress st) eqn:Ef;
    [|left; unfold process_response; now rewrite Ef].
  destruct (agent_process_response (interviewer st) text) as [ag [res|e]] eqn:Ea;
    [|left; unfold process_response; now rewrite Ef, Ea].
  destruct (next_question res) eqn:En;
    [left; unfold process_response; now rewrite Ef, Ea, En|].
  rewrite (process_response_last st text ag res Ef Ea En).
  apply (update_candidate_assessment_list
           (mkApp ag (candidates st) (current_candidate st) false)).
Qed.

Lemma step_list st op :
  (exists today info,
      candidates (step st op)
        = (candidates st ++
             [new_record today (format_id (S (List.length (candidates st)))) info])%list) \/
  candidates (step st op) = candidates st \/
  exists target report,
    candidates (step st op) = update_first target report (candidates st).
Proof.
  destruct op as [today info|cid|text]; cbn [step].
  - left. exists today, info. now rewrite add_candidate_eq.
  - right. left. apply start_interview_candidates.
  - right. apply process_response_list.
Qed.

Lemma step_slot_ok st op : slot_ok st -> slot_ok (step st op).
Proof.
  destruct op; cbn [step];
    [apply slot_ok_add_candidate | apply slot_ok_start_interview
     | apply slot_ok_process_response].
Qed.

Lemma run_slot_ok st ops : slot_ok st -> slot_ok (run st ops).
Proof.
  revert st. induction ops as [|op ops IH]; intros st Hok; [exact Hok|].
  cbn [run fold_left]. apply IH, step_slot_ok, Hok.
Qed.

Lemma step_ids_ok st op : ids_ok (candidates st) -> ids_ok (candidates (step st op)).
Proof.
  unfold ids_ok. intros Hok.
  destruct (step_list st op) as [(today & info & ->)|[->|(t & r & ->)]].
  - rewrite map_app, length_app, Hok. cbn [List.length map new_record cand_id].
    rewrite Nat.add_1_r, seq_S, map_app. reflexivity.
  - exact Hok.
  - now rewrite update_first_ids, update_first_length.
Qed.

Lemma run_ids_ok st ops : ids_ok (candidates st) -> ids_ok (candidates (run st ops)).
Proof.
  revert st. induction ops as [|op ops IH]; intros st Hok; [exact Hok|].
  cbn [run fold_left]. apply IH, step_ids_ok, Hok.
Qed.

Lemma step_evolves st op :
  exists kept extra,
    candidates (step st op) = (kept ++ extra)%list /\
    Forall2 evolves (candidates st) kept.
Proof.
  destruct (step_list st op) as [(today & info & ->)|[->|(t & r & ->)]].
  - eexists _, _. split; [reflexivity|apply Forall2_evolves_refl].
  - exists (candidates st), []. split; [now rewrite app_nil_r|apply Forall2_evolves_refl].
  - eexists _, []. split; [now rewrite app_nil_r|apply update_first_evolves].
Qed.

Lemma run_evolves st ops :
  exists kept extra,
    candidates (run st ops) = (kept ++ extra)%list /\
    Forall2 evolves (candidates st) kept.
Proof.
  revert st. induction ops as [|op ops IH]; intros st.
  - exists (candidates st), []. split; [now rewrite app_nil_r|apply Forall2_evolves_refl].
  - cbn [run fold_left].
    destruct (step_evolves st op) as (k1 & e1 & Hs & H1).
    destruct (IH (step st op)) as (k2 & e2 & Hr & H2).
    rewrite Hs in H2. apply Forall2_app_inv_l in H2.
    destruct H2 as (k2a & k2b & H2a & H2b & ->).
    exists k2a, (k2b ++ e2)%list. split.
    + unfold run in Hr. rewrite Hr. now rewrite app_assoc.
    + eapply Forall2_evolves_trans; eassumption.
Qed.

Lemma step_status_ok st op :
  Forall status_ok (candidates st) -> Forall status_ok (candidates (step st op)).
Proof.
  intros Hok.
  destruct (step_list st op) as [(today & info & ->)|[->|(t & r & ->)]].
  - apply Forall_app. split; [exact Hok|].
    constructor; [|constructor]. left. now cbn.
  - exact Hok.
  - now apply update_first_status_ok.
Qed.

Lemma run_status_ok st ops :
  Forall status_ok (candidates st) -> Forall status_ok (candidates (run st ops)).
Proof.
  revert st. induction ops as [|op ops IH]; intros st Hok; [exact Hok|].
  cbn [run fold_left]. apply IH, step_status_ok, Hok.
Qed.
End Steps.

Lemma ids_ok_nth cs k c :
  ids_ok cs -> nth_error cs k = Some c -> cand_id c = format_id (S k).
Proof.
  unfold ids_ok. intros Hok Hk.
  assert (Hlt : (k < List.length cs)%nat).
  { apply nth_error_Some. now rewrite Hk. }
  apply (map_nth_error cand_id) in Hk. rewrite Hok, nth_error_map, nth_error_seq in Hk.
  apply Nat.ltb_lt in Hlt. rewrite Hlt in Hk. cbn in Hk. now injection Hk.
Qed.

Lemma ids_ok_nodup cs : ids_ok cs -> NoDup (map cand_id cs).
Proof. unfold ids_ok. intros ->. apply format_ids_nodup. Qed.

Lemma ids_ok_fresh cs :
  ids_ok cs -> find_candidate cs (format_id (S (List.length cs))) = None.
Proof.
  unfold ids_ok. intros Hok. apply find_candidate_none. rewrite Hok.
  intros Hin. apply in_map_iff in Hin. destruct Hin as (m & Hm & Hin).
  apply format_id_injective in Hm. apply in_seq in Hin. lia.
Qed.

Lemma ids_ok_lookup cs k c :
  ids_ok cs -> nth_error cs k = Some c ->
  find_candidate cs (format_id (S k)) = Some c.
Proof.
  intros Hok Hk. pose proof (ids_ok_nth _ _ _ Hok Hk) as Hid.
  destruct (nth_error_split _ _ Hk) as (pre & post & Hcs & Hlen).
  rewrite Hcs. apply find_candidate_middle; [|exact Hid].
  intros x Hx. apply In_nth_error in Hx. destruct Hx as [j Hj].
  assert (Hjk : (j < k)%nat).
  { rewrite <- Hlen. apply nth_error_Some. now rewrite Hj. }
  assert (Hj' : nth_error cs j = Some x).
  { rewrite Hcs, nth_error_app1; [exact Hj|lia]. }
  rewrite (ids_ok_nth _ _ _ Hok Hj'). intros E.
  apply format_id_injective in E. lia.
Qed.

(** X10: when the ids of the list are C1, C2, ... in list order, as in a
    list that only [add_candidate] ever filled, they stay so under every
    sequence of calls.  In every state reached the ids are pairwise distinct,
    the id the next [add_candidate] will hand out is not taken, and looking
    C(k+1) up gives the record at position k. *)
Theorem run_keeps_ids (agent : Type) (I : InterviewerAgent agent)
    (W : CandidateStore)
    (st : AIInterviewerApp agent) (ops : list Operation) :
  ids_ok (candidates st) ->
  ids_ok (candidates (run st ops)) /\
  NoDup (map cand_id (candidates (run st ops))) /\
  get_candidate_details (run st ops)
    (format_id (S (List.length (candidates (run st ops))))) = None /\
  (forall k c, nth_error (candidates (run st ops)) k = Some c ->
               get_candidate_details (run st ops) (format_id (S k)) = Some c).
Proof.
  intros Hok. pose proof (run_ids_ok st ops Hok) as Hrun.
  split; [exact Hrun|]. split; [now apply ids_ok_nodup|].
  split; [now apply ids_ok_fresh|].
  intros k c Hk. now apply ids_ok_lookup.
Qed.

Lemma run_keeps_ids_witness :
  ids_ok (candidates
            (@run _ SampleAgent SampleStore (init (mkAgent tt None) None)
               [OpAdd "2024-01-01" (sample_info "Alice" "Other");
                OpStart "C1"; OpProcess "I listen first";
                OpAdd "2024-01-02" (sample_info "Bob" "Software Engineer")])) /\
  NoDup (map cand_id
           (candidates
              (@run _ SampleAgent SampleStore (init (mkAgent tt None) None)
                 [OpAdd "2024-01-01" (sample_info "Alice" "Other");
                  OpStart "C1"; OpProcess "I listen first";
                  OpAdd "2024-01-02" (sample_info "Bob" "Software Engineer")]))) /\
  get_candidate_details
    (@run _ SampleAgent SampleStore (init (mkAgent tt None) None)
       [OpAdd "2024-01-01" (sample_info "Alice" "Other");
        OpStart "C1"; OpProcess "I listen first";
        OpAdd "2024-01-02" (sample_info "Bob" "Software Engineer")])
    (format_id
       (S (List.length
             (candidates
                (@run _ SampleAgent SampleStore (init (mkAgent tt None) None)
                   [OpAdd "2024-01-01" (sample_info "Alice" "Other");
                    OpStart "C1"; OpProcess "I listen first";
                    OpAdd "2024-01-02" (sample_info "Bob" "Software Engineer")])))))
    = None /\
  (forall k c,
      nth_error
        (candidates
           (@run _ SampleAgent SampleStore (init (mkAgent tt None) None)
              [OpAdd "2024-01-01" (sample_info "Alice" "Other");
               OpStart "C1"; OpProcess "I listen first";
               OpAdd "2024-01-02" (sample_info "Bob" "Software Engineer")])) k
        = Some c ->
      get_candidate_details
        (@run _ SampleAgent SampleStore (init (mkAgent tt None) None)
           [OpAdd "2024-01-01" (sample_info "Alice" "Other");
            OpStart "C1"; OpProcess "I listen first";
            OpAdd "2024-01-02" (sample_info "Bob" "Software Engineer")])
        (format_id (S k)) = Some c).
Proof.
  apply (run_keeps_ids _ SampleAgent SampleStore (init (mkAgent tt None) None)
           [OpAdd "2024-01-01" (sample_info "Alice" "Other");
            OpStart "C1"; OpProcess "I listen first";
            OpAdd "2024-01-02" (sample_info "Bob" "Software Engineer")]).
  reflexivity.
Defined.

(** X11: no sequence of calls removes or reorders a record or rewrites its
    name, email, position, experience, id or interview date, and a record
    that has an assessment never loses it: the list afterwards is the old
    list, record by record in a later version, followed by the records
    added. *)
Theorem run_keeps_records (agent : Type) (I : InterviewerAgent agent)
    (W : CandidateStore)
    (st : AIInterviewerApp agent) (ops : list Operation) :
  exists kept extra,
    candidates (run st ops) = (kept ++ extra)%list /\
    Forall2 evolves (candidates st) kept /\
    List.length kept = List.length (candidates st).
Proof.
  destruct (run_evolves st ops) as (kept & extra & Hr & He).
  exists kept, extra. repeat split; try assumption.
  symmetry. eapply Forall2_length, He.
Qed.

Lemma pending_ranked_partition cs :
  Forall status_ok cs ->
  Permutation
    (filter (fun c => String.eqb (cand_status c) "Pending") cs
       ++ filter has_assessment cs) cs.
Proof.
  induction 1 as [|c rest Hc Hrest IH]; [constructor|].
  cbn [filter]. unfold has_assessment at 1.
  destruct Hc as [(Hs & Ha & _)|(Hs & Ha & _)]; rewrite Hs.
  - rewrite Ha. cbn [String.eqb]. cbn [app]. now constructor.
  - destruct (cand_assessment c); [|congruence].
    replace (String.eqb "Interviewed" "Pending") with false by reflexivity.
    apply Permutation_sym, Permutation_cons_app, Permutation_sym, IH.
Qed.

(** X12: when every record is either pending without an assessment or
    interviewed with one, as [add_candidate] and the completion of an
    interview write them, this stays so under every sequence of calls, and
    in every state reached the pending candidates the dashboard offers and
    the ranking together hold every candidate exactly once. *)
Theorem run_keeps_status (agent : Type) (I : InterviewerAgent agent)
    (W : CandidateStore)
    (st : AIInterviewerApp agent) (ops : list Operation) :
  Forall status_ok (candidates st) ->
  Forall status_ok (candidates (run st ops)) /\
  exists r,
    get_candidate_rankings (run st ops) = Return r /\
    Permutation (pending_candidates (run st ops) ++ r) (candidates (run st ops)).
Proof.
  intros Hok. pose proof (run_status_ok st ops Hok) as Hrun.
  split; [exact Hrun|].
  destruct (rankings_spec (run st ops)) as (r & Hr & Hp & _).
  exists r. split; [exact Hr|].
  eapply perm_trans; [|apply pending_ranked_partition, Hrun].
  apply Permutation_app_head, Hp.
Qed.

Lemma run_keeps_status_witness :
  Forall status_ok
    (candidates
       (@run _ SampleAgent SampleStore (init (mkAgent tt None) None)
          [OpAdd "2024-01-01" (sample_info "Alice" "Other");
           OpStart "C1"; OpProcess "I listen first";
           OpAdd "2024-01-02" (sample_info "Bob" "Software Engineer")])) /\
  exists r,
    get_candidate_rankings
      (@run _ SampleAgent SampleStore (init (mkAgent tt None) None)
         [OpAdd "2024-01-01" (sample_info "Alice" "Other");
          OpStart "C1"; OpProcess "I listen first";
          OpAdd "2024-01-02" (sample_info "Bob" "Software Engineer")])
      = Return r /\
    Permutation
      (pending_candidates
         (@run _ SampleAgent SampleStore (init (mkAgent tt None) None)
            [OpAdd "2024-01-01" (sample_info "Alice" "Other");
             OpStart "C1"; OpProcess "I listen first";
             OpAdd "2024-01-02" (sample_info "Bob" "Software Engineer")]) ++ r)
      (candidates
         (@run _ SampleAgent SampleStore (init (mkAgent tt None) None)
            [OpAdd "2024-01-01" (sample_info "Alice" "Other");
             OpStart "C1"; OpProcess "I listen first";
             OpAdd "2024-01-02" (sample_info "Bob" "Software Engineer")])).
Proof.
  apply (run_keeps_status _ SampleAgent SampleStore (init (mkAgent tt None) None)
           [OpAdd "2024-01-01" (sample_info "Alice" "Other");
            OpStart "C1"; OpProcess "I listen first";
            OpAdd "2024-01-02" (sample_info "Bob" "Software Engineer")]).
  constructor.
Defined.

Example run_example :
  map (fun c => (cand_id c, cand_status c, has_assessment c))
    (candidates
       (@run _ SampleAgent SampleStore (init (mkAgent tt None) None)
          [OpAdd "2024-01-01" (sample_info "Alice" "Other");
           OpStart "C1"; OpProcess "I listen first";
           OpAdd "2024-01-02" (sample_info "Bob" "Software Engineer")]))
  = [("C1", "Interviewed", true); ("C2", "Pending", false)].
Proof. reflexivity. Qed.

(** ** The dashboard *)

Lemma dict_set_values (ids : list string) k v d :
  In v ids -> Forall (fun kv => In (snd kv) ids) d ->
  Forall (fun kv => In (snd kv) ids) (dict_set k v d).
Proof.
  intros Hv. induction 1 as [|[k' v'] rest Hkv Hrest IH]; cbn [dict_set].
  - constructor; [exact Hv|constructor].
  - destruct (String.eqb k' k); constructor; assumption.
Qed.

Lemma candidate_options_values cs label selected_id :
  dict_get label (candidate_options cs) = Some selected_id ->
  In selected_id (map cand_id cs).
Proof.
  unfold candidate_options.
  assert (Hgen : forall l d,
             (forall c, In c l -> In (cand_id c) (map cand_id cs)) ->
             Forall (fun kv => In (snd kv) (map cand_id cs)) d ->
             Forall (fun kv => In (snd kv) (map cand_id cs))
               (fold_left (fun d c => dict_set (candidate_label c) (cand_id c) d) l d)).
  { induction l as [|c l IH]; intros d Hl Hd; [exact Hd|].
    cbn [fold_left]. apply IH.
    - intros c' Hc'. apply Hl. now right.
    - apply dict_set_values; [apply Hl; now left|exact Hd]. }
  specialize (Hgen cs [] (fun c Hc => in_map cand_id cs c Hc) (Forall_nil _)).
  unfold dict_get.
  destruct (find _ _) as [kv|] eqn:Ef; [|discriminate].
  intros [= <-]. apply find_some in Ef. destruct Ef as [Hin _].
  rewrite Forall_forall in Hgen. exact (Hgen kv Hin).
Qed.

Lemma pending_candidates_ids (agent : Type) (app : AIInterviewerApp agent) cid :
  In cid (map cand_id (pending_candidates app)) ->
  In cid (map cand_id (candidates app)).
Proof.
  intros Hin. apply in_map_iff in Hin. destruct Hin as (c & <- & Hc).
  apply filter_In in Hc. apply in_map, Hc.
Qed.

Section DashboardFacts.
Context {agent : Type} `{InterviewerAgent agent} `{CandidateStore}.
Implicit Types (app : AIInterviewerApp agent) (ss : SessionState) (w : Widgets).

Lemma start_interview_found app cid msg :
  In cid (map cand_id (candidates app)) ->
  snd (start_interview app cid) <> Failure msg.
Proof.
  intros Hin. unfold start_interview.
  destruct (find_candidate (candidates app) cid) as [c|] eqn:Ef.
  - cbn [focus_flags].
    destruct (agent_start_interview _ _ _ _) as [ag [q|e]]; discriminate.
  - apply find_candidate_none_iff in Ef. contradiction.
Qed.

Lemma process_response_failure app text msg :
  snd (process_response app text) = Failure msg ->
  msg = "No interview in progress".
Proof.
  unfold process_response.
  destruct (interview_in_progress app); cbn [negb]; [|now intros [= <-]].
  destruct (agent_process_response _ _) as [ag [res|e]]; [|discriminate].
  destruct (next_question res); [discriminate|].
  destruct (_update_candidate_assessment _) as [st3 [u|e]]; discriminate.
Qed.

Lemma and_then_messages (p : Page agent) next m :
  In m (page_messages (and_then p next)) ->
  In m (page_messages p) \/
  (page_ending p = Finished /\
   In m (page_messages (next (page_app p) (page_session p)))).
Proof.
  unfold and_then. destruct (page_ending p); cbn [page_messages]; auto.
  intros Hin. apply in_app_or in Hin. destruct Hin; auto.
Qed.

Lemma form_section_messages w today app ss m :
  In m (page_messages (form_section w today app ss)) ->
  m = MsgError "Please fill in all required fields" \/
  m = MsgSuccess ("Candidate added successfully! ID: "
                    ++ format_id (S (List.length (candidates app)))).
Proof.
  unfold form_section. destruct (w_submitted w); [|intros []].
  destruct (nonempty (w_name w) && nonempty (w_email w)).
  - rewrite add_candidate_eq.
    destruct (w_start_now w); cbn [page_messages]; intros [<-|[]]; now right.
  - cbn [page_messages]. intros [<-|[]]. now left.
Qed.

Lemma start_section_messages w app ss m :
  In m (page_messages (start_section w app ss)) -> False.
Proof.
  unfold start_section.
  destruct (dict_get _ _) as [selected_id|] eqn:Eg; [|intros []].
  destruct (w_start_interview w); [|intros []].
  pose proof (start_interview_found app selected_id) as Hfound.
  destruct (start_interview app selected_id) as [app1 [msg|q|e]];
    cbn [page_messages]; [intros _|intros []|intros []].
  apply (Hfound msg); [|reflexivity].
  apply pending_candidates_ids. eapply candidate_options_values, Eg.
Qed.

Lemma interview_section_messages w app ss m :
  In m (page_messages (interview_section w app ss)) ->
  m = MsgError "No interview in progress" \/
  m = MsgWarning "Please enter a response" \/
  m = MsgInfo "Interview complete or no questions available" \/
  m = MsgSuccess "Interview completed!" \/
  exists n, m = MsgSuccess (remaining_message n).
Proof.
  unfold interview_section.
  destruct (match ss_interview_candidate_id ss with
            | Some cid => get_candidate_details app cid
            | None => None end); [|intros []].
  destruct (ss_current_question ss).
  - destruct (w_submit_response w); [|intros []].
    destruct (nonempty (w_response w)).
    + pose proof (process_response_failure app (w_response w)) as Hfail.
      destruct (process_response app (w_response w)) as [app1 [msg|res|e]].
      * cbn [page_messages]. intros [<-|[]]. left. f_equal. now apply Hfail.
      * destruct (next_question res); cbn [page_messages]; intros [<-|[]]; eauto 6.
      * intros [].
    + cbn [page_messages]. intros [<-|[]]. auto.
  - cbn [page_messages]. intros [<-|[]]. auto.
Qed.

(** Every status message a run of the page can show. *)
Lemma new_interview_page_messages w today app ss m :
  In m (page_messages (new_interview_page w today app ss)) ->
  m = MsgError "Please fill in all required fields" \/
  m = MsgSuccess ("Candidate added successfully! ID: "
                    ++ format_id (S (List.length (candidates app)))) \/
  m = MsgInfo "No pending candidates available for interview." \/
  m = MsgError "No interview in progress" \/
  m = MsgWarning "Please enter a response" \/
  m = MsgInfo "Interview complete or no questions available" \/
  m = MsgSuccess "Interview completed!" \/
  exists n, m = MsgSuccess (remaining_message n).
Proof.
  unfold new_interview_page. intros Hin.
  apply and_then_messages in Hin. destruct Hin as [Hin|[_ Hin]].
  { apply form_section_messages in Hin. tauto. }
  destruct (pending_candidates _).
  { cbn [page_messages] in Hin. destruct Hin as [<-|[]]. tauto. }
  apply and_then_messages in Hin. destruct Hin as [Hin|[_ Hin]].
  - destruct (negb _); [now apply start_section_messages in Hin|destruct Hin].
  - destruct (ss_interview_active _); [|destruct Hin].
    apply interview_section_messages in Hin. tauto.
Qed.
End DashboardFacts.

(** X13: whatever the widgets return, a run of the page "New Interview"
    never shows the error "Candidate not found": the id it passes to
    [start_interview] is taken from the pending candidates of the list. *)
Theorem dashboard_never_candidate_not_found (agent : Type)
    (I : InterviewerAgent agent) (W : CandidateStore) (w : Widgets) (today : string)
    (app : AIInterviewerApp agent) (ss : SessionState) :
  ~ In (MsgError "Candidate not found")
       (page_messages (new_interview_page w today app ss)).
Proof.
  intros Hin. apply new_interview_page_messages in Hin.
  destruct Hin as [E|[E|[E|[E|[E|[E|[E|[n E]]]]]]]]; discriminate E.
Qed.

Section DashboardRun.
Context {agent : Type} `{InterviewerAgent agent} `{CandidateStore}.
Implicit Types (app : AIInterviewerApp agent) (ss : SessionState) (w : Widgets).

Lemma process_response_idle app text :
  interview_in_progress app = false ->
  process_response app text = (app, Failure "No interview in progress").
Proof. intros Hf. unfold process_response. now rewrite Hf. Qed.

Lemma form_section_app w today app ss :
  interviewer (page_app (form_section w today app ss)) = interviewer app /\
  interview_in_progress (page_app (form_section w today app ss))
    = interview_in_progress app /\
  filter has_assessment (candidates (page_app (form_section w today app ss)))
    = filter has_assessment (candidates app) /\
  (page_ending (form_section w today app ss) = Finished ->
   page_session (form_section w today app ss) = ss).
Proof.
  unfold form_section. destruct (w_submitted w); [|now repeat split].
  destruct (nonempty (w_name w) && nonempty (w_email w)); [|now repeat split].
  rewrite add_candidate_eq.
  destruct (w_start_now w); cbn [page_app page_session page_ending interviewer
                                  interview_in_progress candidates];
    rewrite filter_app; cbn [filter new_record has_assessment cand_assessment];
    rewrite app_nil_r; repeat split; discriminate.
Qed.

Lemma start_section_finished w app ss :
  page_ending (start_section w app ss) = Finished ->
  page_app (start_section w app ss) = app /\
  page_session (start_section w app ss) = ss.
Proof.
  unfold start_section. destruct (dict_get _ _); [|discriminate].
  destruct (w_start_interview w); [|now split].
  unfold start_interview.
  destruct (find_candidate (candidates app) s) as [c|]; [|now split].
  cbn [focus_flags].
  destruct (agent_start_interview _ _ _ _) as [ag [q|e]]; discriminate.
Qed.

Lemma start_section_candidates w app ss :
  candidates (page_app (start_section w app ss)) = candidates app.
Proof.
  unfold start_section. destruct (dict_get _ _) as [cid|]; [|reflexivity].
  destruct (w_start_interview w); [|reflexivity].
  pose proof (start_interview_candidates app cid) as Hc.
  destruct (start_interview app cid) as [app1 [msg|q|e]]; exact Hc.
Qed.

Lemma interview_section_idle w app ss :
  interview_in_progress app = false ->
  page_app (interview_section w app ss) = app /\
  page_ending (interview_section w app ss) <> Rerun /\
  forall m, In m (page_messages (interview_section w app ss)) ->
            m = MsgError "No interview in progress" \/
            m = MsgWarning "Please enter a response" \/
            m = MsgInfo "Interview complete or no questions available".
Proof.
  intros Hidle. unfold interview_section.
  destruct (match ss_interview_candidate_id ss with
            | Some cid => get_candidate_details app cid
            | None => None end);
    [|repeat split; [discriminate|intros m []]].
  destruct (ss_current_question ss).
  - destruct (w_submit_response w);
      [|repeat split; [discriminate|intros m []]].
    destruct (nonempty (w_response w)).
    + rewrite process_response_idle by exact Hidle.
      repeat split; [discriminate|]. intros m [<-|[]]. auto.
    + repeat split; [discriminate|]. intros m [<-|[]]. auto.
  - repeat split; [discriminate|]. intros m [<-|[]]. auto.
Qed.

Lemma and_then_finished (p : Page agent) next :
  page_ending p = Finished ->
  and_then p next =
    mkPage (page_app (next (page_app p) (page_session p)))
           (page_session (next (page_app p) (page_session p)))
           (page_messages p ++ page_messages (next (page_app p) (page_session p)))
           (page_ending (next (page_app p) (page_session p))).
Proof. unfold and_then. now intros ->. Qed.

Lemma and_then_stopped (p : Page agent) next :
  page_ending p <> Finished -> and_then p next = p.
Proof. unfold and_then. destruct (page_ending p); congruence. Qed.

(** A run on an application object without an interview in progress. *)
Lemma idle_page w today app ss :
  interview_in_progress app = false ->
  filter has_assessment (candidates (page_app (new_interview_page w today app ss)))
    = filter has_assessment (candidates app) /\
  forall m, In m (page_messages (new_interview_page w today app ss)) ->
            m <> MsgSuccess "Interview completed!" /\
            forall n, m <> MsgSuccess (remaining_message n).
Proof.
  intros Hidle.
  destruct (form_section_app w today app ss) as (_ & Hflag & Hfil & Hss).
  rewrite Hidle in Hflag. unfold new_interview_page.
  set (p1 := form_section w today app ss) in *.
  assert (Hm1 : forall m, In m (page_messages p1) ->
                  m <> MsgSuccess "Interview completed!" /\
                  forall n, m <> MsgSuccess (remaining_message n)).
  { intros m Hm. apply form_section_messages in Hm.
    destruct Hm as [->| ->]; split; try intros n; discriminate. }
  destruct (page_ending p1) eqn:E1;
    [|rewrite and_then_stopped by congruence; split; [exact Hfil|exact Hm1] ..].
  rewrite (and_then_finished _ _ E1). cbn [page_app page_messages].
  destruct (pending_candidates (page_app p1)) as [|c0 cs0].
  { cbn [page_app page_messages]. split; [exact Hfil|].
    intros m Hm. apply in_app_or in Hm. destruct Hm as [Hm|[<-|[]]]; [now apply Hm1|].
    split; try intros n; discriminate. }
  set (p2 := if negb (ss_interview_active (page_session p1))
             then start_section w (page_app p1) (page_session p1)
             else mkPage (page_app p1) (page_session p1) [] Finished).
  assert (Hc2 : candidates (page_app p2) = candidates (page_app p1)).
  { subst p2. destruct (negb _); [apply start_section_candidates|reflexivity]. }
  assert (Hm2 : forall m, In m (page_messages p2) -> False).
  { subst p2. intros m. destruct (negb _); [apply start_section_messages|intros []]. }
  assert (Hf2 : page_ending p2 = Finished -> page_app p2 = page_app p1).
  { subst p2. destruct (negb _); [|reflexivity].
    intros Hf. now apply start_section_finished. }
  destruct (page_ending p2) eqn:E2;
    [|rewrite and_then_stopped by congruence;
      (split; [now rewrite Hc2|]);
      intros m Hm; apply in_app_or in Hm;
      destruct Hm as [Hm|Hm]; [now apply Hm1|now apply Hm2 in Hm] ..].
  rewrite (and_then_finished _ _ E2). cbn [page_app page_messages].
  rewrite (Hf2 eq_refl).
  destruct (ss_interview_active (page_session p2)).
  - destruct (interview_section_idle w (page_app p1) (page_session p2) Hflag)
      as (Happ & _ & Hmsg).
    rewrite Happ. split; [exact Hfil|].
    intros m Hm. apply in_app_or in Hm. destruct Hm as [Hm|Hm]; [now apply Hm1|].
    apply in_app_or in Hm. destruct Hm as [Hm|Hm]; [now apply Hm2 in Hm|].
    apply Hmsg in Hm. destruct Hm as [->|[->| ->]]; split; try intros n; discriminate.
  - cbn [page_app page_messages]. split; [exact Hfil|].
    intros m Hm. apply in_app_or in Hm. destruct Hm as [Hm|Hm]; [now apply Hm1|].
    apply in_app_or in Hm. destruct Hm as [Hm|[]]. now apply Hm2 in Hm.
Qed.
End DashboardRun.

(** X14: a run of the dashboard page "New Interview" works on an
    application object it has just built, so no interview is in progress in
    it and no response is ever processed: whatever the widgets return and
    whatever the session state holds, the run leaves the ranking as the file
    gave it and shows neither "Interview completed!" nor "Response
    processed. ...". *)
Theorem dashboard_run_never_processes (agent : Type) (I : InterviewerAgent agent)
    (W : CandidateStore)
    (fresh : agent) (file : option (list Candidate)) (w : Widgets)
    (today : string) (ss : SessionState) :
  get_candidate_rankings (page_app (run_new_interview fresh file w today ss))
    = get_candidate_rankings (init fresh file) /\
  ~ In (MsgSuccess "Interview completed!")
       (page_messages (run_new_interview fresh file w today ss)) /\
  (forall n, ~ In (MsgSuccess (remaining_message n))
                  (page_messages (run_new_interview fresh file w today ss))).
Proof.
  unfold run_new_interview.
  destruct (idle_page w today (init fresh file) ss eq_refl) as [Hfil Hmsg].
  split; [now apply rankings_candidates|]. split.
  - intros Hin. now apply Hmsg in Hin.
  - intros n Hin. apply Hmsg in Hin. destruct Hin as [_ Hn]. now apply (Hn n).
Qed.

(** X15: when a run of the page reaches the button "Submit Response" (an
    interview is marked active in the session state for a listed candidate,
    with a current question) and a non-empty answer is submitted, the answer
    is turned down with the error "No interview in progress"; the
    application object and the session state stay as they are. *)
Theorem dashboard_submit_is_rejected (agent : Type) (I : InterviewerAgent agent)
    (W : CandidateStore)
    (fresh : agent) (file : option (list Candidate)) (w : Widgets)
    (today : string) (ss : SessionState) (cid : string) (c : Candidate)
    (q : Question) :
  w_submitted w = false ->
  pending_candidates (init fresh file) <> [] ->
  ss_interview_active ss = true ->
  ss_interview_candidate_id ss = Some cid ->
  get_candidate_details (init fresh file) cid = Some c ->
  ss_current_question ss = Some q ->
  w_submit_response w = true ->
  w_response w <> "" ->
  run_new_interview fresh file w today ss
    = mkPage (init fresh file) ss [MsgError "No interview in progress"] Finished.
Proof.
  intros Hsub Hpend Hact Hid Hdet Hq Hbtn Hresp.
  unfold run_new_interview, new_interview_page, form_section.
  rewrite Hsub. unfold and_then at 1. cbn [page_ending page_app page_session
                                            page_messages].
  destruct (pending_candidates (init fresh file)) as [|c0 cs0]; [congruence|].
  rewrite Hact. cbn [negb]. unfold and_then.
  cbn [page_ending page_app page_session page_messages].
  rewrite Hact. unfold interview_section. rewrite Hid, Hdet, Hq, Hbtn.
  assert (Hne : nonempty (w_response w) = true).
  { unfold nonempty. apply negb_true_iff, String.eqb_neq, Hresp. }
  rewrite Hne. rewrite process_response_idle by reflexivity.
  destruct ss. reflexivity.
Qed.

Lemma dashboard_submit_is_rejected_witness :
  @run_new_interview _ SampleAgent SampleStore (mkAgent tt None) (Some [alice; bob])
    (mkWidgets "" "" "Other" 3 false false "" false "I listen first" true)
    "2024-01-01"
    (mkSessionState true (Some sample_behavioral_question) (Some "C1"))
  = mkPage (init (mkAgent tt None) (Some [alice; bob]))
           (mkSessionState true (Some sample_behavioral_question) (Some "C1"))
           [MsgError "No interview in progress"] Finished.
Proof.
  apply (dashboard_submit_is_rejected _ SampleAgent SampleStore (mkAgent tt None)
           (Some [alice; bob])
           (mkWidgets "" "" "Other" 3 false false "" false "I listen first" true)
           "2024-01-01"
           (mkSessionState true (Some sample_behavioral_question) (Some "C1"))
           "C1" alice sample_behavioral_question);
    try reflexivity; discriminate.
Defined.

Section DashboardCalls.
Context {agent : Type} `{InterviewerAgent agent} `{CandidateStore}.
Implicit Types (app : AIInterviewerApp (Traced agent)) (ss : SessionState)
               (w : Widgets).

Lemma start_interview_trace app cid :
  trace (interviewer (fst (start_interview app cid)))
    = (trace (interviewer app) ++
         match find_candidate (candidates app) cid with
         | Some c => [CallStart cid (technical_focus_of c) true]
         | None => []
         end)%list.
Proof.
  unfold start_interview.
  destruct (find_candidate (candidates app) cid) as [c|];
    [|cbn [fst]; now rewrite app_nil_r].
  cbn [focus_flags agent_start_interview TracedAgent]. unfold traced_start.
  destruct (agent_start_interview (traced_agent (interviewer app)) cid
              (technical_focus_of c) true) as [ag [q|e]]; reflexivity.
Qed.

Lemma update_candidate_assessment_interviewer
    (st : AIInterviewerApp (Traced agent)) :
  interviewer (fst (_update_candidate_assessment st)) = interviewer st.
Proof.
  unfold _update_candidate_assessment.
  destruct (agent_get_candidate_assessment _); [|reflexivity].
  destruct (candidates st); [reflexivity|].
  destruct (current_candidate st); reflexivity.
Qed.

Lemma process_response_trace app text :
  trace (interviewer (fst (process_response app text)))
    = (trace (interviewer app) ++
         if interview_in_progress app then [CallProcess text] else [])%list.
Proof.
  unfold process_response.
  destruct (interview_in_progress app); cbn [negb];
    [|cbn [fst]; now rewrite app_nil_r].
  cbn [agent_process_response TracedAgent]. unfold traced_process.
  destruct (agent_process_response (traced_agent (interviewer app)) text)
    as [ag [res|e]]; [|reflexivity].
  destruct (next_question res); [reflexivity|].
  pose proof (update_candidate_assessment_interviewer
                (mkApp (mkTraced ag (trace (interviewer app) ++ [CallProcess text]))
                       (candidates app) (current_candidate app) false)) as Hi.
  destruct (_update_candidate_assessment _) as [st3 [u|e]];
    cbn [fst interviewer] in *; now rewrite Hi.
Qed.

Lemma start_section_trace w app ss :
  exists calls,
    trace (interviewer (page_app (start_section w app ss)))
      = (trace (interviewer app) ++ calls)%list /\
    (calls = [] \/
     exists cid tf,
       calls = [CallStart cid tf true] /\
       In cid (map cand_id (pending_candidates app)) /\
       page_ending (start_section w app ss) <> Finished).
Proof.
  unfold start_section.
  destruct (dict_get _ _) as [cid|] eqn:Eg;
    [|exists []; split; [now rewrite app_nil_r|now left]].
  destruct (w_start_interview w);
    [|exists []; split; [now rewrite app_nil_r|now left]].
  pose proof (start_interview_trace app cid) as Ht.
  pose proof (candidate_options_values _ _ _ Eg) as Hin.
  destruct (find_candidate (candidates app) cid) as [c|] eqn:Ef.
  - exists [CallStart cid (technical_focus_of c) true].
    assert (Hend : forall msg, snd (start_interview app cid) <> Failure msg).
    { intros msg. apply start_interview_found.
      now apply pending_candidates_ids. }
    destruct (start_interview app cid) as [app1 [msg|q|e]];
      cbn [page_app page_ending fst snd] in *;
      (split; [exact Ht|]); right; exists cid, (technical_focus_of c);
      repeat split; try assumption; try discriminate.
    exfalso. now apply (Hend msg).
  - exfalso. apply find_candidate_none_iff in Ef. apply Ef.
    now apply pending_candidates_ids.
Qed.

Lemma interview_section_trace w app ss :
  exists calls,
    trace (interviewer (page_app (interview_section w app ss)))
      = (trace (interviewer app) ++ calls)%list /\
    (calls = [] \/
     (calls = [CallProcess (w_response w)] /\
      w_response w <> "" /\ interview_in_progress app = true)).
Proof.
  unfold interview_section.
  destruct (match ss_interview_candidate_id ss with
            | Some cid => get_candidate_details app cid
            | None => None end);
    [|exists []; split; [now rewrite app_nil_r|now left]].
  destruct (ss_current_question ss);
    [|exists []; split; [now rewrite app_nil_r|now left]].
  destruct (w_submit_response w);
    [|exists []; split; [now rewrite app_nil_r|now left]].
  destruct (nonempty (w_response w)) eqn:En;
    [|exists []; split; [now rewrite app_nil_r|now left]].
  pose proof (process_response_trace app (w_response w)) as Ht.
  assert (Hne : w_response w <> "").
  { unfold nonempty in En. now apply negb_true_iff, String.eqb_neq in En. }
  exists (if interview_in_progress app then [CallProcess (w_response w)] else []).
  split.
  - destruct (process_response app (w_response w)) as [app1 [msg|res|e]];
      [exact Ht| |exact Ht].
    destruct (next_question res); exact Ht.
  - destruct (interview_in_progress app); [right; now repeat split|now left].
Qed.

(** The calls of [start_interview] and [process_response] a run of the page
    makes to the agent. *)
Lemma new_interview_page_trace w today app ss :
  exists calls,
    trace (interviewer (page_app (new_interview_page w today app ss)))
      = (trace (interviewer app) ++ calls)%list /\
    (calls = [] \/
     (exists cid tf,
         calls = [CallStart cid tf true] /\ ss_interview_active ss = false) \/
     (calls = [CallProcess (w_response w)] /\
      w_response w <> "" /\
      ss_interview_active ss = true /\
      interview_in_progress app = true)).
Proof.
  destruct (form_section_app w today app ss) as (Hint & Hflag & _ & Hss).
  unfold new_interview_page.
  set (p1 := form_section w today app ss) in *.
  destruct (page_ending p1) eqn:E1;
    [|rewrite and_then_stopped by congruence;
      exists []; split; [now rewrite Hint, app_nil_r|now left] ..].
  rewrite (and_then_finished _ _ E1). cbn [page_app].
  specialize (Hss eq_refl).
  destruct (pending_candidates (page_app p1)) as [|c0 cs0].
  { cbn [page_app]. exists []. split; [now rewrite Hint, app_nil_r|now left]. }
  rewrite Hss.
  destruct (ss_interview_active ss) eqn:Eact; cbn [negb].
  - rewrite and_then_finished by reflexivity. cbn [page_app page_session].
    rewrite Eact.
    destruct (interview_section_trace w (page_app p1) ss) as (calls & Ht & Hc).
    exists calls. rewrite Hint in Ht. split; [exact Ht|].
    destruct Hc as [->|(-> & Hne & Hf)]; [now left|].
    right. right. rewrite Hflag in Hf. now repeat split.
  - destruct (start_section_trace w (page_app p1) ss) as (calls & Ht & Hc).
    rewrite Hint in Ht.
    destruct (page_ending (start_section w (page_app p1) ss)) eqn:E2.
    + destruct (start_section_finished w (page_app p1) ss E2) as [Ha Hs].
      rewrite (and_then_finished _ _ E2). cbn [page_app]. rewrite Hs, Eact.
      cbn [page_app]. exists calls. split; [exact Ht|].
      destruct Hc as [->|(cid & tf & _ & _ & Hend)]; [now left|congruence].
    + rewrite and_then_stopped by congruence. exists calls. split; [exact Ht|].
      destruct Hc as [->|(cid & tf & -> & _ & _)]; [now left|].
      right. left. now exists cid, tf.
    + rewrite and_then_stopped by congruence. exists calls. split; [exact Ht|].
      destruct Hc as [->|(cid & tf & -> & _ & _)]; [now left|].
      right. left. now exists cid, tf.
    + rewrite and_then_stopped by congruence. exists calls. split; [exact Ht|].
      destruct Hc as [->|(cid & tf & -> & _ & _)]; [now left|].
      right. left. now exists cid, tf.
Qed.
End DashboardCalls.

(** X16: with the calls of the agent's [start_interview] and
    [process_response] logged, a run of the page "New Interview" makes at most
    one such call.  It starts an interview only when the session state shows
    none as active, and it hands a response to the agent only when one is
    shown as active, the response then being the text typed, which is never
    empty.  (Calls of [get_candidate_assessment] are not counted.) *)
Theorem dashboard_agent_calls (agent : Type) (I : InterviewerAgent agent)
    (W : CandidateStore)
    (w : Widgets) (today : string) (app : AIInterviewerApp (Traced agent))
    (ss : SessionState) :
  exists calls,
    trace (interviewer (page_app (new_interview_page w today app ss)))
      = (trace (interviewer app) ++ calls)%list /\
    (calls = [] \/
     (exists cid tf,
         calls = [CallStart cid tf true] /\ ss_interview_active ss = false) \/
     (calls = [CallProcess (w_response w)] /\
      w_response w <> "" /\
      ss_interview_active ss = true /\
      interview_in_progress app = true)).
Proof. apply new_interview_page_trace. Qed.

(** ** When an interview ends, and what can go wrong *)

(** X17: with an interview in progress, [process_response] lowers the flag
    exactly when the agent returns a result without a next question.  When
    the agent then fails to deliver the assessment, the exception escapes
    with the flag already lowered and nothing written to the candidate list:
    the interview is over without an assessment. *)
Theorem process_response_flag (agent : Type) (I : InterviewerAgent agent)
    (W : CandidateStore)
    (st : AIInterviewerApp agent) (text : string) :
  interview_in_progress st = true ->
  (interview_in_progress (fst (process_response st text)) = false <->
     exists res,
       snd (agent_process_response (interviewer st) text) = Return res /\
       next_question res = None) /\
  (forall res e,
      snd (agent_process_response (interviewer st) text) = Return res ->
      next_question res = None ->
      agent_get_candidate_assessment
        (fst (agent_process_response (interviewer st) text)) = Raise e ->
      process_response st text =
        (mkApp (fst (agent_process_response (interviewer st) text))
               (candidates st) (current_candidate st) false,
         Raised e)).
Proof.
  intros Hflag. unfold process_response. rewrite Hflag. cbn [negb].
  destruct (agent_process_response (interviewer st) text) as [ag [res|e]];
    cbn [fst snd].
  - destruct (next_question res) eqn:En.
    + split.
      * cbn [fst interview_in_progress]. split; [congruence|].
        intros (res' & [= <-] & Hn). congruence.
      * intros res' e [= <-] Hn. congruence.
    + pose proof (update_candidate_assessment_flag
                    (mkApp ag (candidates st) (current_candidate st) false)) as Hfl.
      split.
      * destruct (_update_candidate_assessment _) as [st3 [u|e]];
          cbn [fst interview_in_progress] in *;
          (split; [intros _; now exists res|intros _; exact Hfl]).
      * intros res' e [= <-] _ Hrep.
        unfold _update_candidate_assessment. cbn [interviewer]. now rewrite Hrep.
  - split.
    + cbn [fst interview_in_progress]. split; [congruence|].
      intros (res & Hres & _). discriminate Hres.
    + intros res e' Hres. discriminate Hres.
Qed.

Lemma process_response_flag_witness :
  (interview_in_progress
     (fst (@process_response _ SampleAgent SampleStore sample_started "I listen first")) = false <->
     exists res,
       snd (@agent_process_response _ SampleAgent (interviewer sample_started)
              "I listen first") = Return res /\
       next_question res = None) /\
  (forall res e,
      snd (@agent_process_response _ SampleAgent (interviewer sample_started)
             "I listen first") = Return res ->
      next_question res = None ->
      @agent_get_candidate_assessment _ SampleAgent
        (fst (@agent_process_response _ SampleAgent (interviewer sample_started)
                "I listen first")) = Raise e ->
      @process_response _ SampleAgent SampleStore sample_started "I listen first" =
        (mkApp (fst (@agent_process_response _ SampleAgent
                       (interviewer sample_started) "I listen first"))
               (candidates sample_started) (current_candidate sample_started) false,
         Raised e)).
Proof.
  apply (process_response_flag _ SampleAgent SampleStore sample_started "I listen first").
  reflexivity.
Defined.

(** X18: in a state reached from a newly built application object by any
    sequence of calls, an exception that escapes [process_response] was
    raised by the agent, in its [process_response] or in its
    [get_candidate_assessment], or by the closing write of the file, of the
    list as the call leaves it; looking up the current candidate never fails
    there. *)
Theorem process_response_raise_origin (agent : Type)
    (I : InterviewerAgent agent) (W : CandidateStore) (fresh : agent)
    (file : option (list Candidate)) (ops : list Operation)
    (text : string) (e : exn) :
  snd (process_response (run (init fresh file) ops) text) = Raised e ->
  snd (agent_process_response (interviewer (run (init fresh file) ops)) text)
    = Raise e \/
  exists res,
    snd (agent_process_response (interviewer (run (init fresh file) ops)) text)
      = Return res /\
    next_question res = None /\
    (agent_get_candidate_assessment
       (fst (agent_process_response (interviewer (run (init fresh file) ops)) text))
       = Raise e \/
     exists report,
       agent_get_candidate_assessment
         (fst (agent_process_response (interviewer (run (init fresh file) ops)) text))
         = Return report /\
       _save_candidates
         (candidates (fst (process_response (run (init fresh file) ops) text)))
         = Raise e).
Proof.
  pose proof (run_slot_ok (init fresh file) ops
                (slot_ok_initial fresh (_load_candidates file))) as Hok.
  set (st := run (init fresh file) ops) in *.
  unfold process_response.
  destruct (interview_in_progress st) eqn:Ef; cbn [negb]; [|discriminate].
  destruct (Hok Ef) as (cur & c & Hcur & Hfind).
  destruct (agent_process_response (interviewer st) text) as [ag [res|e']];
    cbn [fst snd].
  - destruct (next_question res) eqn:En; [discriminate|].
    destruct (agent_get_candidate_assessment ag) as [report|e'] eqn:Er.
    + rewrite (update_candidate_assessment_found _ cur c report);
        [|assumption..].
      cbn [interviewer candidates current_candidate interview_in_progress].
      destruct (_save_candidates (update_first (cand_id cur) report (candidates st)))
        as [u|e'] eqn:Ew; [discriminate|].
      cbn [fst snd candidates]. intros [= <-]. right. exists res.
      split; [reflexivity|]. split; [exact En|]. right. now exists report.
    + unfold _update_candidate_assessment. cbn [interviewer]. rewrite Er.
      intros [= <-]. right. exists res.
      split; [reflexivity|]. split; [exact En|]. now left.
  - intros [= <-]. now left.
Qed.

Lemma process_response_raise_origin_witness :
  snd (@agent_process_response _ SampleAgent
         (interviewer
            (@run _ SampleAgent ReadOnlyStore
               (init (mkAgent tt None) (Some [alice; bob])) [OpStart "C1"]))
         "I listen first")
    = Raise OSError \/
  exists res,
    snd (@agent_process_response _ SampleAgent
           (interviewer
              (@run _ SampleAgent ReadOnlyStore
                 (init (mkAgent tt None) (Some [alice; bob])) [OpStart "C1"]))
           "I listen first")
      = Return res /\
    next_question res = None /\
    (@agent_get_candidate_assessment _ SampleAgent
       (fst (@agent_process_response _ SampleAgent
               (interviewer
                  (@run _ SampleAgent ReadOnlyStore
                     (init (mkAgent tt None) (Some [alice; bob])) [OpStart "C1"]))
               "I listen first"))
       = Raise OSError \/
     exists report,
       @agent_get_candidate_assessment _ SampleAgent
         (fst (@agent_process_response _ SampleAgent
                 (interviewer
                    (@run _ SampleAgent ReadOnlyStore
                       (init (mkAgent tt None) (Some [alice; bob])) [OpStart "C1"]))
                 "I listen first"))
         = Return report /\
       @_save_candidates ReadOnlyStore
         (candidates
            (fst (@process_response _ SampleAgent ReadOnlyStore
                    (@run _ SampleAgent ReadOnlyStore
                       (init (mkAgent tt None) (Some [alice; bob])) [OpStart "C1"])
                    "I listen first")))
         = Raise OSError).
Proof.
  apply (process_response_raise_origin _ SampleAgent ReadOnlyStore
           (mkAgent tt None) (Some [alice; bob]) [OpStart "C1"]
           "I listen first" OSError).
  reflexivity.
Defined.

(** ** Choosing a candidate by its label *)

Lemma dict_get_set k k' v d :
  dict_get k (dict_set k' v d) = if String.eqb k' k then Some v else dict_get k d.
Proof.
  unfold dict_get. induction d as [|[k0 v0] rest IH]; cbn [dict_set find fst snd].
  - destruct (String.eqb k' k); reflexivity.
  - destruct (String.eqb k0 k') eqn:E0; cbn [find fst snd].
    + apply String.eqb_eq in E0. subst k0.
      destruct (String.eqb k' k); reflexivity.
    + destruct (String.eqb k0 k) eqn:E1; [|exact IH].
      apply String.eqb_eq in E1. subst k0. now rewrite String.eqb_sym, E0.
Qed.

Lemma find_append {A : Type} (f : A -> bool) (l1 l2 : list A) :
  find f (l1 ++ l2) = match find f l1 with
                      | Some x => Some x
                      | None => find f l2
                      end.
Proof.
  induction l1 as [|x xs IH]; [reflexivity|].
  cbn [app find]. destruct (f x); [reflexivity|exact IH].
Qed.

(** The options dictionary maps a label to the id of the last candidate that
    has this label. *)
Lemma candidate_options_get cs label :
  dict_get label (candidate_options cs)
    = match find (fun c => String.eqb (candidate_label c) label) (rev cs) with
      | Some c => Some (cand_id c)
      | None => None
      end.
Proof.
  unfold candidate_options.
  assert (Hgen : forall l d,
    dict_get label
      (fold_left (fun d c => dict_set (candidate_label c) (cand_id c) d) l d)
    = match find (fun c => String.eqb (candidate_label c) label) (rev l) with
      | Some c => Some (cand_id c)
      | None => dict_get label d
      end).
  { induction l as [|c l IH]; intros d; [reflexivity|].
    cbn [fold_left rev]. rewrite IH, find_append.
    destruct (find _ (rev l)); [reflexivity|].
    cbn [find]. rewrite dict_get_set.
    destruct (String.eqb (candidate_label c) label); reflexivity. }
  rewrite Hgen. destruct (find _ (rev cs)); reflexivity.
Qed.

Lemma chars_append s t : chars (s ++ t) = (chars s ++ chars t)%list.
Proof.
  unfold chars. induction s as [|a s IH]; [reflexivity|].
  cbn [append list_ascii_of_string app]. now rewrite IH.
Qed.

Lemma append_closing_inv s t : s ++ ")" = t ++ ")" -> s = t.
Proof.
  revert t. induction s as [|a s IH]; intros [|b t]; cbn [append]; intros E.
  - reflexivity.
  - injection E as _ E. destruct t; discriminate E.
  - injection E as _ E. destruct s; discriminate E.
  - injection E as -> E. f_equal. now apply IH.
Qed.

Lemma label_tail name i1 i2 :
  ~ In "("%char (chars i1) ->
  " (" ++ i1 ++ ")" = name ++ " (" ++ i2 ++ ")" -> i1 = i2.
Proof.
  intros Hno. destruct name as [|a [|b name]]; cbn [append]; intros E.
  - injection E as E. now apply append_closing_inv.
  - injection E as _ E. discriminate E.
  - injection E as _ _ E. exfalso. apply Hno.
    assert (Hin : In "("%char (chars (i1 ++ ")"))).
    { rewrite E, chars_append. apply in_or_app. right. right. now left. }
    rewrite chars_append in Hin. apply in_app_or in Hin.
    destruct Hin as [Hin|[Hin|[]]]; [exact Hin|discriminate Hin].
Qed.

Lemma label_injective name1 name2 i1 i2 :
  ~ In "("%char (chars i1) -> ~ In "("%char (chars i2) ->
  name1 ++ " (" ++ i1 ++ ")" = name2 ++ " (" ++ i2 ++ ")" -> i1 = i2.
Proof.
  intros H1 H2. revert name2.
  induction name1 as [|a name1 IH]; intros name2 E.
  - now apply (label_tail name2).
  - destruct name2 as [|b name2].
    + symmetry. now apply (label_tail (String a name1)).
    + cbn [append] in E. injection E as _ E. now apply IH in E.
Qed.

Lemma digits_no_paren d : ~ In "("%char (chars (NilEmpty.string_of_uint d)).
Proof.
  unfold chars. induction d; cbn; intros Hin;
    try (destruct Hin as [Hin|Hin]; [discriminate Hin|now apply IHd]);
    exact Hin.
Qed.

Lemma decimal_no_paren d : ~ In "("%char (chars (NilZero.string_of_uint d)).
Proof.
  destruct d;
    [cbn; intros [Hin|[]]; discriminate Hin
    |apply (digits_no_paren (Decimal.D0 d))
    |apply (digits_no_paren (Decimal.D1 d))
    |apply (digits_no_paren (Decimal.D2 d))
    |apply (digits_no_paren (Decimal.D3 d))
    |apply (digits_no_paren (Decimal.D4 d))
    |apply (digits_no_paren (Decimal.D5 d))
    |apply (digits_no_paren (Decimal.D6 d))
    |apply (digits_no_paren (Decimal.D7 d))
    |apply (digits_no_paren (Decimal.D8 d))
    |apply (digits_no_paren (Decimal.D9 d))].
Qed.

Lemma format_id_no_paren n : ~ In "("%char (chars (format_id n)).
Proof.
  unfold format_id. rewrite chars_append. intros Hin.
  apply in_app_or in Hin. destruct Hin as [[Hin|[]]|Hin]; [discriminate Hin|].
  now apply decimal_no_paren in Hin.
Qed.

Lemma ids_ok_format cs c : ids_ok cs -> In c cs -> exists n, cand_id c = format_id n.
Proof.
  unfold ids_ok. intros Hok Hin. apply (in_map cand_id) in Hin.
  rewrite Hok in Hin. apply in_map_iff in Hin. destruct Hin as (n & <- & _).
  now exists n.
Qed.

(** With ids of the form C<number>, candidates with the same label have the
    same id, so the options dictionary maps the label of every candidate of
    the list to the id of that candidate. *)
Lemma candidate_options_own cs sub c :
  ids_ok cs -> (forall x, In x sub -> In x cs) -> In c sub ->
  dict_get (candidate_label c) (candidate_options sub) = Some (cand_id c).
Proof.
  intros Hok Hsub Hin. rewrite candidate_options_get.
  destruct (find _ (rev sub)) as [c'|] eqn:Ef.
  - apply find_some in Ef. destruct Ef as [Hin' Hl].
    apply String.eqb_eq in Hl. apply in_rev in Hin'.
    destruct (ids_ok_format cs c Hok (Hsub c Hin)) as [n Hn].
    destruct (ids_ok_format cs c' Hok (Hsub c' Hin')) as [n' Hn'].
    f_equal. unfold candidate_label in Hl.
    apply label_injective in Hl; [exact Hl| |].
    + rewrite Hn'. apply format_id_no_paren.
    + rewrite Hn. apply format_id_no_paren.
  - exfalso. eapply find_none in Ef; [|apply in_rev in Hin; exact Hin].
    cbn in Ef. now rewrite String.eqb_refl in Ef.
Qed.

Lemma ids_ok_find cs c :
  ids_ok cs -> In c cs -> find_candidate cs (cand_id c) = Some c.
Proof.
  intros Hok Hin. apply In_nth_error in Hin. destruct Hin as [k Hk].
  rewrite (ids_ok_nth _ _ _ Hok Hk). now apply ids_ok_lookup.
Qed.

(** X19: the page "Candidate Details" never arrives at the error "Candidate
    not found".  When the ids of the list are C1, C2, ... in list order,
    choosing the label of a candidate of the list displays that very
    candidate. *)
Theorem details_page_shows_selected (agent : Type)
    (app : AIInterviewerApp agent) :
  (forall selected, candidate_details_page selected app
                      <> ViewError "Candidate not found") /\
  (ids_ok (candidates app) ->
   forall c, In c (candidates app) ->
             candidate_details_page (candidate_label c) app = ViewCandidate c).
Proof.
  unfold candidate_details_page, get_candidate_details. split.
  - intros selected. destruct (candidates app) as [|c0 cs0] eqn:Ecs; [discriminate|].
    destruct (dict_get _ _) as [cid|] eqn:Eg; [|discriminate].
    apply candidate_options_values in Eg.
    destruct (find_candidate (c0 :: cs0) cid) eqn:Ef; [discriminate|].
    apply find_candidate_none_iff in Ef. contradiction.
  - intros Hok c Hin. destruct (candidates app) as [|c0 cs0] eqn:Ecs; [destruct Hin|].
    rewrite (candidate_options_own (c0 :: cs0) (c0 :: cs0) c Hok (fun x Hx => Hx) Hin).
    now rewrite ids_ok_find.
Qed.

(** X20: when the ids of the list are C1, C2, ... in list order and the
    session state shows no interview as active, choosing the label of a
    pending candidate and pressing "Start Interview" makes exactly this
    candidate the current candidate of the application object, with the flag
    raised. *)
Theorem dashboard_start_selects_candidate (agent : Type)
    (I : InterviewerAgent agent) (W : CandidateStore) (w : Widgets) (today : string)
    (app : AIInterviewerApp agent) (ss : SessionState) (c : Candidate) :
  ids_ok (candidates app) ->
  In c (pending_candidates app) ->
  w_submitted w = false ->
  ss_interview_active ss = false ->
  w_selected_candidate w = candidate_label c ->
  w_start_interview w = true ->
  current_candidate (page_app (new_interview_page w today app ss)) = Some c /\
  interview_in_progress (page_app (new_interview_page w today app ss)) = true /\
  page_ending (new_interview_page w today app ss) <> Finished.
Proof.
  intros Hok Hin Hsub Hact Hsel Hbtn.
  assert (Hcs : In c (candidates app)).
  { unfold pending_candidates in Hin. now apply filter_In in Hin. }
  assert (Hp : forall x, In x (pending_candidates app) -> In x (candidates app)).
  { intros x Hx. unfold pending_candidates in Hx. now apply filter_In in Hx. }
  unfold new_interview_page, form_section. rewrite Hsub.
  rewrite and_then_finished by reflexivity.
  cbn [page_app page_session page_messages].
  destruct (pending_candidates app) as [|c0 cs0] eqn:Ep; [destruct Hin|].
  rewrite Hact. cbn [negb]. rewrite <- Ep in *. clear Ep c0 cs0.
  assert (Hstart : exists r,
             start_section w app ss = r /\
             current_candidate (page_app r) = Some c /\
             interview_in_progress (page_app r) = true /\
             page_ending r <> Finished).
  { unfold start_section. rewrite Hsel.
    rewrite (candidate_options_own (candidates app) (pending_candidates app) c Hok Hp Hin).
    rewrite Hbtn. unfold start_interview. rewrite (ids_ok_find _ _ Hok Hcs).
    cbn [focus_flags].
    destruct (agent_start_interview _ _ _ _) as [ag [q|e]];
      eexists; (split; [reflexivity|]); cbn [page_app page_ending current_candidate
                                                interview_in_progress];
      repeat split; discriminate. }
  destruct Hstart as (r & -> & Hcur & Hflag & Hend).
  rewrite and_then_stopped by exact Hend. cbn [page_app page_ending].
  now repeat split.
Qed.

Lemma dashboard_start_selects_candidate_witness :
  current_candidate
    (page_app
       (@new_interview_page _ SampleAgent SampleStore
          (mkWidgets "" "" "Other" 3 false false "Someone (C2)" true "" false)
          "2024-01-01" (sample_app [alice; bob])
          (mkSessionState false None None))) = Some bob /\
  interview_in_progress
    (page_app
       (@new_interview_page _ SampleAgent SampleStore
          (mkWidgets "" "" "Other" 3 false false "Someone (C2)" true "" false)
          "2024-01-01" (sample_app [alice; bob])
          (mkSessionState false None None))) = true /\
  page_ending
    (@new_interview_page _ SampleAgent SampleStore
       (mkWidgets "" "" "Other" 3 false false "Someone (C2)" true "" false)
       "2024-01-01" (sample_app [alice; bob])
       (mkSessionState false None None)) <> Finished.
Proof.
  apply (dashboard_start_selects_candidate _ SampleAgent SampleStore
           (mkWidgets "" "" "Other" 3 false false "Someone (C2)" true "" false)
           "2024-01-01" (sample_app [alice; bob])
           (mkSessionState false None None) bob);
    try reflexivity.
  cbn. right. now left.
Defined.

(** X21: the first entry of the ranking is a best candidate: no assessed
    candidate of the list has a higher overall score. *)
Theorem rankings_top_is_best (agent : Type) (st : AIInterviewerApp agent)
    (top : Candidate) (rest : list Candidate) :
  get_candidate_rankings st = Return (top :: rest) ->
  exists best,
    cand_assessment top = Some best /\
    In top (candidates st) /\
    forall c a, In c (candidates st) -> cand_assessment c = Some a ->
                overall_score a <= overall_score best.
Proof.
  intros Hr. destruct (rankings_spec st) as (r & Hr' & Hp & Hs & _).
  rewrite Hr in Hr'. injection Hr' as <-.
  assert (Htop : In top (filter has_assessment (candidates st))).
  { eapply Permutation_in; [exact Hp|now left]. }
  apply filter_In in Htop. destruct Htop as [Hin Ha].
  unfold has_assessment in Ha.
  destruct (cand_assessment top) as [best|] eqn:Eb; [|discriminate].
  exists best. repeat split; [exact Hin|].
  intros c a Hc Hca.
  assert (Hcr : In c (top :: rest)).
  { eapply Permutation_in; [apply Permutation_sym, Hp|].
    apply filter_In. split; [exact Hc|]. unfold has_assessment. now rewrite Hca. }
  destruct Hcr as [<-|Hcr].
  - rewrite Eb in Hca. injection Hca as <-. apply Qle_refl.
  - apply StronglySorted_inv in Hs. destruct Hs as [_ Hall].
    rewrite Forall_forall in Hall. specialize (Hall c Hcr).
    unfold score_ge, score_key in Hall. now rewrite Eb, Hca in Hall.
Qed.

Lemma rankings_top_is_best_witness :
  exists best,
    cand_assessment (sample_candidate "C3" "Other" (Some (sample_assessment (9 # 10))))
      = Some best /\
    In (sample_candidate "C3" "Other" (Some (sample_assessment (9 # 10))))
       (candidates
          (sample_app [sample_candidate "C1" "Other" (Some (sample_assessment (7 # 10)));
                       sample_candidate "C2" "Other" None;
                       sample_candidate "C3" "Other" (Some (sample_assessment (9 # 10)))])) /\
    forall c a,
      In c (candidates
              (sample_app [sample_candidate "C1" "Other" (Some (sample_assessment (7 # 10)));
                           sample_candidate "C2" "Other" None;
                           sample_candidate "C3" "Other" (Some (sample_assessment (9 # 10)))])) ->
      cand_assessment c = Some a ->
      overall_score a <= overall_score best.
Proof.
  apply (rankings_top_is_best _
           (sample_app [sample_candidate "C1" "Other" (Some (sample_assessment (7 # 10)));
                        sample_candidate "C2" "Other" None;
                        sample_candidate "C3" "Other" (Some (sample_assessment (9 # 10)))])
           (sample_candidate "C3" "Other" (Some (sample_assessment (9 # 10))))
           [sample_candidate "C1" "Other" (Some (sample_assessment (7 # 10)))]).
  reflexivity.
Defined.
